(** * Transcription orchestration layer: a shallow embedding

    The development follows the backend of the speech-to-text service:
    the configuration constants ([speech-config.js]), the credential
    manager [WorkloadIdentityManager] ([workload-identity-setup.js]) and
    the orchestrator [GoogleSTTService] ([google-stt-service.js]).

    JavaScript values are modelled as follows.
    - Strings are byte strings (the UTF-8 text of the source).  Substring
      search for an ASCII needle gives the same answer on UTF-8 bytes as
      on UTF-16 code units.  [toLowerCase] is modelled on the ASCII
      letters; bytes outside ASCII are left as they are.  No non-ASCII
      character lower-cases to a string made of the letters of a key of
      the tables below, so every table lookup agrees with the source.
    - Numbers that hold confidences and durations are IEEE-754 doubles,
      Rocq's primitive [float].  Byte counts, ceilings and millisecond
      timestamps are integers far below 2^53 and are kept in [Z].
    - A [Buffer] is the list of its bytes.
    - [async] functions run to completion between two external calls;
      an external call is answered by the environment [Env], and the
      calls made so far are recorded in the world's trace.  [console]
      output is not modelled. *)

From Stdlib Require Import ZArith List String Ascii Bool Lia.
From Stdlib Require Import Floats.PrimFloat Numbers.Cyclic.Int63.Uint63.
From Stdlib Require Import Numbers.DecimalString Numbers.DecimalNat.
From stdpp Require Import base option gmap strings list.

Local Open Scope string_scope.
Local Open Scope list_scope.
Local Open Scope Z_scope.

(** ** JavaScript strings *)

Module JsString.

(** [String.prototype.toLowerCase] on one ASCII code unit. *)
Definition lower_ascii (c : ascii) : ascii :=
  let n := nat_of_ascii c in
  if (65 <=? n)%nat && (n <=? 90)%nat then ascii_of_nat (n + 32) else c.

Fixpoint toLowerCase (s : string) : string :=
  match s with
  | EmptyString => EmptyString
  | String c r => String (lower_ascii c) (toLowerCase r)
  end.

(** [hay.includes(needle)]. *)
Fixpoint includes (hay needle : string) : bool :=
  String.prefix needle hay ||
  match hay with
  | EmptyString => false
  | String _ r => includes r needle
  end.

(** [parts.join(sep)]. *)
Fixpoint join (sep : string) (parts : list string) : string :=
  match parts with
  | [] => ""
  | [p] => p
  | p :: rest => p +:+ sep +:+ join sep rest
  end.

(** The decimal text of a non-negative integer, as a template literal
    prints an array index. *)
Definition of_nat (n : nat) : string :=
  NilEmpty.string_of_uint (Nat.to_uint n).

(** [s || d] on strings: the empty string is falsy. *)
Definition or_else (s d : string) : string :=
  if String.eqb s "" then d else s.

End JsString.

(** ** JavaScript numbers *)

Module JsNumber.

(** The double nearest to an integer (exact below 2^53). *)
Definition of_Z (z : Z) : float :=
  match z with
  | Z0 => 0%float
  | Zpos _ => PrimFloat.of_uint63 (Uint63.of_Z z)
  | Zneg p => PrimFloat.opp (PrimFloat.of_uint63 (Uint63.of_Z (Zpos p)))
  end.

(** Truthiness of a number: [0], [-0] and [NaN] are falsy. *)
Definition truthy (x : float) : bool :=
  negb (PrimFloat.eqb x 0%float) && PrimFloat.eqb x x.

(** [x || d] on numbers. *)
Definition or_else (x d : float) : float :=
  if truthy x then x else d.

End JsNumber.

(** ** Values that an object lookup can produce *)

Inductive JsValue : Type :=
| JsUndefined
| JsStr (s : string)
| JsFunction (name : string)
| JsObject (name : string).

Definition js_truthy (v : JsValue) : bool :=
  match v with
  | JsUndefined => false
  | JsStr s => negb (String.eqb s "")
  | JsFunction _ | JsObject _ => true
  end.

(** [a || b]. *)
Definition js_or (a b : JsValue) : JsValue :=
  if js_truthy a then a else b.

(** The properties every object literal inherits from [Object.prototype]
    (ECMAScript 2023, with the legacy accessors of Annex B). *)
Definition object_prototype : list (string * JsValue) :=
  [ ("constructor", JsFunction "Object");
    ("__proto__", JsObject "Object.prototype");
    ("hasOwnProperty", JsFunction "hasOwnProperty");
    ("isPrototypeOf", JsFunction "isPrototypeOf");
    ("propertyIsEnumerable", JsFunction "propertyIsEnumerable");
    ("toLocaleString", JsFunction "toLocaleString");
    ("toString", JsFunction "toString");
    ("valueOf", JsFunction "valueOf");
    ("__defineGetter__", JsFunction "__defineGetter__");
    ("__defineSetter__", JsFunction "__defineSetter__");
    ("__lookupGetter__", JsFunction "__lookupGetter__");
    ("__lookupSetter__", JsFunction "__lookupSetter__") ].

Fixpoint assoc_get (key : string) (props : list (string * JsValue)) : option JsValue :=
  match props with
  | [] => None
  | (k, v) :: rest => if String.eqb k key then Some v else assoc_get key rest
  end.

(** [obj[key]] for an object literal with the given own properties: the
    own properties first, then the prototype chain. *)
Definition js_get (own : list (string * JsValue)) (key : string) : JsValue :=
  match assoc_get key own with
  | Some v => v
  | None =>
      match assoc_get key object_prototype with
      | Some v => v
      | None => JsUndefined
      end
  end.

(** ** Errors *)

(** A thrown value: the constructor's name, the numeric [code] a remote
    error carries, and the message. *)
Record JsError : Type := mkJsError {
  err_name : string;
  err_code : option Z;
  err_message : string
}.

(** [new Error(msg)]. *)
Definition Error (msg : string) : JsError := mkJsError "Error" None msg.

Definition ReferenceError (ident : string) : JsError :=
  mkJsError "ReferenceError" None (ident +:+ " is not defined").

Definition TypeError (msg : string) : JsError :=
  mkJsError "TypeError" None msg.

(** ** Configuration: speech-config.js *)

Record SpeechConfig : Type := {
  encoding : string;
  sampleRateHertz : Z;
  languageCode : string;
  alternativeLanguageCodes : list string;
  enableAutomaticPunctuation : bool;
  enableWordTimeOffsets : bool;
  enableWordConfidence : bool;
  model : string;
  useEnhanced : bool;
  maxAudioLength : Z;
  maxFileSize : Z;
  supportedFormats : list string;
  rateLimitPerMinute : Z;
  rateLimitPerHour : Z
}.

Definition speechConfig : SpeechConfig := {|
  encoding := "WEBM_OPUS";
  sampleRateHertz := 16000;
  languageCode := "ja-JP";
  alternativeLanguageCodes := ["en-US"];
  enableAutomaticPunctuation := true;
  enableWordTimeOffsets := true;
  enableWordConfidence := true;
  model := "latest_long";
  useEnhanced := true;
  maxAudioLength := 300;
  maxFileSize := 10 * 1024 * 1024;
  supportedFormats := ["webm"; "wav"; "mp3"; "ogg"];
  rateLimitPerMinute := 60;
  rateLimitPerHour := 1000
|}.

Module errorMessages.
Definition UNSUPPORTED_FORMAT : string := "対応していない音声フォーマットです".
Definition FILE_TOO_LARGE : string :=
  "ファイルサイズが大きすぎます（10MB以下にしてください）".
Definition AUDIO_TOO_LONG : string := "音声が長すぎます（5分以下にしてください）".
Definition RATE_LIMIT_EXCEEDED : string :=
  "リクエスト制限を超えました。しばらく待ってから再試行してください".
Definition AUTHENTICATION_FAILED : string := "認証に失敗しました".
Definition TRANSCRIPTION_FAILED : string := "音声の文字起こしに失敗しました".
Definition NETWORK_ERROR : string := "ネットワークエラーが発生しました".
End errorMessages.

(** ** Buffers *)

Definition Buffer : Type := list Byte.byte.

(** [buffer.length]. *)
Definition blen (b : Buffer) : Z := Z.of_nat (length b).

(** A relative index of [slice]: negative counts from the end, and the
    result is clamped to the buffer. *)
Definition slice_index (len k : Z) : Z :=
  if k <? 0 then Z.max (len + k) 0 else Z.min k len.

(** [buffer.slice(s, e)]. *)
Definition slice (b : Buffer) (s e : Z) : Buffer :=
  let s' := slice_index (blen b) s in
  let e' := slice_index (blen b) e in
  firstn (Z.to_nat (e' - s')) (skipn (Z.to_nat s') b).

(** [array.includes(x)] on an array of strings. *)
Definition array_includes (l : list string) (x : string) : bool :=
  existsb (String.eqb x) l.

(** ** Objects of the client libraries *)

(** A [GoogleAuth] object: its identity (the number of the allocation
    that made it) and the options it was constructed with.  An absent
    [keyFilename] property is [None]; a present one holds the value of
    the environment variable, which may itself be undefined. *)
Record GoogleAuth : Type := {
  ga_id : nat;
  ga_scopes : list string;
  ga_projectId : option string;
  ga_keyFilename : option (option string)
}.

(** The client that [auth.getClient()] resolves to. *)
Record AuthClient : Type := {
  ac_id : nat;
  ac_auth : nat
}.

Record SpeechClient : Type := {
  sc_id : nat;
  sc_projectId : string;
  sc_auth : option AuthClient
}.

(** The request of the recognizer RPC. *)
Record RecognitionConfig : Type := {
  cfg_encoding : JsValue;
  cfg_sampleRateHertz : Z;
  cfg_languageCode : string;
  cfg_alternativeLanguageCodes : list string;
  cfg_enableAutomaticPunctuation : bool;
  cfg_enableWordTimeOffsets : bool;
  cfg_enableWordConfidence : bool;
  cfg_model : string;
  cfg_useEnhanced : bool;
  cfg_audioChannelCount : Z;
  cfg_enableSeparateRecognitionPerChannel : bool;
  cfg_profanityFilter : bool;
  cfg_enableSpokenPunctuation : bool;
  cfg_enableSpokenEmojis : bool
}.

(** [audio.content] is the base64 text of the buffer; it is represented
    by the buffer it encodes. *)
Record RecognizeRequest : Type := {
  req_config : RecognitionConfig;
  req_audio_content : Buffer
}.

(** The response of the recognizer RPC. *)
Record Duration : Type := {
  seconds : option Z;
  nanos : option Z
}.

Record WordInfo : Type := {
  api_word : string;
  api_startTime : option Duration;
  api_endTime : option Duration;
  api_word_confidence : float
}.

Record SpeechRecognitionAlternative : Type := {
  api_transcript : string;
  api_confidence : float;
  api_words : option (list WordInfo)
}.

Record SpeechRecognitionResult : Type := {
  api_alternatives : list SpeechRecognitionAlternative
}.

Record RecognizeResponse : Type := {
  api_results : option (list SpeechRecognitionResult)
}.

(** ** The environment and the world *)

(** A call that leaves the process. *)
Inductive Call : Type :=
| GetClient (auth : GoogleAuth)
| GetProjectId (auth : GoogleAuth)
| GetAccessToken (client : AuthClient)
| Recognize (client : SpeechClient) (request : RecognizeRequest)
| SetTimeout (ms : Z).

(** The recognizer is the only remote speech call. *)
Definition is_recognize (c : Call) : bool :=
  match c with Recognize _ _ => true | _ => false end.

(** A call to the credential endpoints. *)
Definition is_credential_call (c : Call) : bool :=
  match c with
  | GetClient _ | GetProjectId _ | GetAccessToken _ => true
  | _ => false
  end.

(** What the program cannot decide: the process environment, the clock
    and the answers of the remote ends.  The [k]-th reading of the clock
    returns [Date_now k]; the call that is made when [n] calls have been
    made before it is answered by [answer_* n]. *)
Record Env : Type := {
  process_env : string -> option string;
  Date_now : nat -> Z;
  answer_getClient : nat -> JsError + unit;
  answer_getProjectId : nat -> JsError + string;
  answer_getAccessToken : nat -> JsError + option string;
  answer_recognize : nat -> JsError + RecognizeResponse
}.

(** The fields of the [WorkloadIdentityManager] singleton. *)
Module Manager.
Record t : Type := mk {
  auth : option GoogleAuth;
  client : option AuthClient;
  initialized : bool
}.
(** The constructor. *)
Definition new : t := mk None None false.
End Manager.

(** The fields of the [GoogleSTTService] singleton. *)
Module Service.
Record t : Type := mk {
  speechClient : option SpeechClient;
  initialized : bool;
  requestCount : gmap string (list Z)
}.
(** The constructor. *)
Definition new : t := mk None false ∅.
End Service.

Record World : Type := mkWorld {
  manager : Manager.t;
  service : Service.t;
  trace : list Call;
  clock_reads : nat;
  allocated : nat
}.

(** The process right after the modules are loaded. *)
Definition boot : World := mkWorld Manager.new Service.new [] 0 0.

(** ** Computations: state and exceptions *)

(** A computation runs in a world and either throws or returns; the
    world it leaves is kept in both cases (a [catch] does not undo the
    assignments made in the [try] block). *)
Definition M (A : Type) : Type := World -> (JsError + A) * World.

Definition ret {A} (a : A) : M A := fun w => (inr a, w).

Definition throw {A} (e : JsError) : M A := fun w => (inl e, w).

Definition bind {A B} (m : M A) (k : A -> M B) : M B :=
  fun w =>
    match m w with
    | (inr a, w') => k a w'
    | (inl e, w') => (inl e, w')
    end.

(** [try { body } catch (error) { handler }]. *)
Definition try_catch {A} (body : M A) (handler : JsError -> M A) : M A :=
  fun w =>
    match body w with
    | (inr a, w') => (inr a, w')
    | (inl e, w') => handler e w'
    end.

(** A pure method that may throw. *)
Definition lift {A} (r : JsError + A) : M A := fun w => (r, w).

Declare Scope js_scope.
Delimit Scope js_scope with js.
Notation "x <- c ;; k" := (bind c (fun x => k))
  (at level 100, c at next level, right associativity) : js_scope.
Notation "c ;; k" := (bind c (fun _ => k))
  (at level 100, right associativity) : js_scope.
Local Open Scope js_scope.

Definition get_manager : M Manager.t := fun w => (inr (manager w), w).

Definition set_manager (m : Manager.t) : M unit :=
  fun w => (inr tt, mkWorld m (service w) (trace w) (clock_reads w) (allocated w)).

Definition get_service : M Service.t := fun w => (inr (service w), w).

Definition set_service (s : Service.t) : M unit :=
  fun w => (inr tt, mkWorld (manager w) s (trace w) (clock_reads w) (allocated w)).

(** [new C(...)]: the identity of the fresh object. *)
Definition allocate : M nat :=
  fun w => (inr (allocated w),
            mkWorld (manager w) (service w) (trace w) (clock_reads w) (S (allocated w))).

(** An awaited call to the outside: it is appended to the trace and the
    environment answers it. *)
Definition external {A} (c : Call) (answer : nat -> JsError + A) : M A :=
  fun w => (answer (length (trace w)),
            mkWorld (manager w) (service w) (trace w ++ [c]) (clock_reads w) (allocated w)).

(** [await new Promise(resolve => setTimeout(resolve, ms))]. *)
Definition sleep (ms : Z) : M unit :=
  external (SetTimeout ms) (fun _ => inr tt).

(** ** The credential manager (the class [WorkloadIdentityManager]) *)

Module workloadIdentityConfig.
Definition scopes : list string :=
  [ "https://www.googleapis.com/auth/cloud-platform";
    "https://www.googleapis.com/auth/speech" ].
Definition projectId (env : Env) : option string :=
  process_env env "GOOGLE_CLOUD_PROJECT_ID".
End workloadIdentityConfig.

(** Truthiness of an environment variable. *)
Definition env_truthy (v : option string) : bool :=
  match v with
  | Some s => negb (String.eqb s "")
  | None => false
  end.

Module WorkloadIdentityManager.

Definition NOT_INITIALIZED : string :=
  "WorkloadIdentityManager is not initialized. Call initialize() first.".

(** The identifiers that are bound where the methods of the class are
    evaluated: the imports and declarations of the module and the
    globals it names. *)
Definition module_scope : list string :=
  [ "GoogleAuth"; "workloadIdentityConfig"; "WorkloadIdentityManager";
    "workloadIdentityManager"; "validateEnvironmentVariables";
    "displayWorkloadIdentitySetup"; "console"; "process"; "Error" ].

(** Evaluating an identifier: an unbound one throws. *)
Definition resolve (ident : string) : M unit :=
  if array_includes module_scope ident then ret tt
  else throw (ReferenceError ident).

Definition set_auth (a : option GoogleAuth) : M unit :=
  m <- get_manager ;;
  set_manager (Manager.mk a (Manager.client m) (Manager.initialized m)).

Definition set_client (c : option AuthClient) : M unit :=
  m <- get_manager ;;
  set_manager (Manager.mk (Manager.auth m) c (Manager.initialized m)).

Definition set_initialized (b : bool) : M unit :=
  m <- get_manager ;;
  set_manager (Manager.mk (Manager.auth m) (Manager.client m) b).

(** [this.auth.getProjectId()]. *)
Definition auth_getProjectId (env : Env) : M string :=
  m <- get_manager ;;
  match Manager.auth m with
  | None => throw (TypeError "Cannot read properties of null (reading 'getProjectId')")
  | Some a => external (GetProjectId a) (answer_getProjectId env)
  end.

(** [getAccessToken()]: the token of the client, which may be null. *)
Definition getAccessToken (env : Env) : M (option string) :=
  m <- get_manager ;;
  if negb (Manager.initialized m) then throw (Error NOT_INITIALIZED)
  else
    try_catch
      (m <- get_manager ;;
       match Manager.client m with
       | None => throw (TypeError "Cannot read properties of null (reading 'getAccessToken')")
       | Some c => external (GetAccessToken c) (answer_getAccessToken env)
       end)
      (fun _ => throw (Error "アクセストークンの取得に失敗しました")).

(** [testAuthentication()]: the liveness probe. *)
Definition testAuthentication (env : Env) : M unit :=
  try_catch
    (projectId <- auth_getProjectId env ;;
     accessToken <- getAccessToken env ;;
     if negb (env_truthy accessToken) then throw (Error "Failed to get access token")
     else ret tt)
    (fun error => throw error).

(** The [GoogleAuth] object that [initialize()] constructs: without a
    key file under GitHub Actions, with the key file of the environment
    otherwise. *)
Definition construct_auth (env : Env) (id : nat) : GoogleAuth :=
  if env_truthy (process_env env "GITHUB_ACTIONS") then
    {| ga_id := id;
       ga_scopes := workloadIdentityConfig.scopes;
       ga_projectId := workloadIdentityConfig.projectId env;
       ga_keyFilename := None |}
  else
    {| ga_id := id;
       ga_scopes := workloadIdentityConfig.scopes;
       ga_projectId := workloadIdentityConfig.projectId env;
       ga_keyFilename := Some (process_env env "GOOGLE_APPLICATION_CREDENTIALS") |}.

(** [initialize()]. *)
Definition initialize (env : Env) : M unit :=
  m <- get_manager ;;
  if Manager.initialized m then ret tt
  else
    try_catch
      (id <- allocate ;;
       set_auth (Some (construct_auth env id)) ;;
       m <- get_manager ;;
       match Manager.auth m with
       | None => throw (TypeError "Cannot read properties of null (reading 'getClient')")
       | Some a =>
           external (GetClient a) (answer_getClient env) ;;
           cid <- allocate ;;
           set_client (Some {| ac_id := cid; ac_auth := ga_id a |}) ;;
           set_initialized true ;;
           testAuthentication env
       end)
      (fun _ => throw (Error "認証の初期化に失敗しました")).

(** [getAuthenticatedClient()]. *)
Definition getAuthenticatedClient : M (option AuthClient) :=
  m <- get_manager ;;
  if negb (Manager.initialized m) then throw (Error NOT_INITIALIZED)
  else ret (Manager.client m).

(** [getProjectId()]. *)
Definition getProjectId (env : Env) : M string :=
  m <- get_manager ;;
  if negb (Manager.initialized m) then throw (Error NOT_INITIALIZED)
  else auth_getProjectId env.

(** [isAuthenticated()]. *)
Definition isAuthenticated (m : Manager.t) : bool :=
  Manager.initialized m && bool_decide (Manager.client m <> None).

(** [refreshAuthentication()].  The third statement of the body assigns
    through the identifier [tiis]. *)
Definition refreshAuthentication (env : Env) : M unit :=
  try_catch
    (set_initialized false ;;
     set_client None ;;
     resolve "tiis" ;;
     initialize env)
    (fun _ => throw (Error "認証のリフレッシュに失敗しました")).

End WorkloadIdentityManager.

(** ** The orchestrator (the class [GoogleSTTService]) *)

(** The [options] argument of the transcription methods; an absent
    property is [None]. *)
Record Options : Type := {
  opt_languageCode : option string;
  opt_clientId : option string;
  opt_sampleRate : option Z
}.

(** [options.p || d] for a string property. *)
Definition opt_str_or (o : option string) (d : string) : string :=
  match o with
  | Some s => JsString.or_else s d
  | None => d
  end.

(** [options.p || d] for an integer property: [0] is falsy. *)
Definition opt_int_or (o : option Z) (d : Z) : Z :=
  match o with
  | Some z => if z =? 0 then d else z
  | None => d
  end.

Record AlternativeOut : Type := {
  alt_transcript : string;
  alt_confidence : float
}.

Record WordDetail : Type := {
  wd_word : string;
  wd_startTime : float;
  wd_endTime : float;
  wd_confidence : float
}.

Record DebugInfo : Type := {
  totalResults : nat;
  dbg_encoding : JsValue;
  dbg_sampleRate : Z;
  dbg_audioSize : Z
}.

(** The object a transcription returns.  [debug] is present on the
    single-request path with results, [chunks] on the chunked path. *)
Record TranscriptionResult : Type := {
  success : bool;
  transcription : string;
  confidence : float;
  processingTime : Z;
  alternatives : list AlternativeOut;
  wordDetails : list WordDetail;
  debug : option DebugInfo;
  chunks : option nat
}.

Module GoogleSTTService.

(** [validateAudioFile(audioBuffer, format)]. *)
Definition validateAudioFile (audioBuffer : Buffer) (format : string) : JsError + bool :=
  if blen audioBuffer >? maxFileSize speechConfig then
    inl (Error errorMessages.FILE_TOO_LARGE)
  else if negb (array_includes (supportedFormats speechConfig)
                               (JsString.toLowerCase format)) then
    inl (Error errorMessages.UNSUPPORTED_FORMAT)
  else
    let estimatedDuration :=
      PrimFloat.div (JsNumber.of_Z (blen audioBuffer))
                    (JsNumber.of_Z (sampleRateHertz speechConfig * 2)) in
    if PrimFloat.ltb (JsNumber.of_Z (maxAudioLength speechConfig)) estimatedDuration then
      inl (Error errorMessages.AUDIO_TOO_LONG)
    else inr true.

Definition formatMap : list (string * JsValue) :=
  [ ("webm", JsStr "WEBM_OPUS");
    ("wav", JsStr "LINEAR16");
    ("mp3", JsStr "MP3");
    ("ogg", JsStr "OGG_OPUS") ].

(** [getEncodingConfig(format)]. *)
Definition getEncodingConfig (format : string) : JsValue :=
  js_or (js_get formatMap (JsString.toLowerCase format)) (JsStr "WEBM_OPUS").

(** The body of [checkRateLimit] after [now] has been read: the new
    value of [requestCount], or the error thrown. *)
Definition checkRateLimitAt (now : Z) (clientId : string)
    (requestCount : gmap string (list Z)) : JsError + gmap string (list Z) :=
  let clientRequests := default [] (requestCount !! clientId) in
  let recentRequests := filter (fun time => now - time < 60000) clientRequests in
  if Z.of_nat (length recentRequests) >=? rateLimitPerMinute speechConfig then
    inl (Error errorMessages.RATE_LIMIT_EXCEEDED)
  else
    let hourlyRequests := filter (fun time => now - time < 3600000) clientRequests in
    if Z.of_nat (length hourlyRequests) >=? rateLimitPerHour speechConfig then
      inl (Error errorMessages.RATE_LIMIT_EXCEEDED)
    else
      inr (<[clientId := recentRequests ++ [now]]> requestCount).

(** [Date.now()]. *)
Definition date_now (env : Env) : M Z :=
  fun w => (inr (Date_now env (clock_reads w)),
            mkWorld (manager w) (service w) (trace w) (S (clock_reads w)) (allocated w)).

(** [checkRateLimit(clientId)]. *)
Definition checkRateLimit (env : Env) (clientId : string) : M bool :=
  now <- date_now env ;;
  s <- get_service ;;
  match checkRateLimitAt now clientId (Service.requestCount s) with
  | inl e => throw e
  | inr requestCount' =>
      set_service (Service.mk (Service.speechClient s) (Service.initialized s)
                              requestCount') ;;
      ret true
  end.

(** [initialize()]. *)
Definition initialize (env : Env) : M unit :=
  try_catch
    (WorkloadIdentityManager.initialize env ;;
     authClient <- WorkloadIdentityManager.getAuthenticatedClient ;;
     projectId <- WorkloadIdentityManager.getProjectId env ;;
     id <- allocate ;;
     s <- get_service ;;
     set_service (Service.mk (Some {| sc_id := id;
                                      sc_projectId := projectId;
                                      sc_auth := authClient |})
                             (Service.initialized s) (Service.requestCount s)) ;;
     s <- get_service ;;
     set_service (Service.mk (Service.speechClient s) true (Service.requestCount s)))
    (fun _ => throw (Error "STTサービスの初期化に失敗しました")).

(** The recognition config built from the format and the options. *)
Definition build_config (format : string) (options : Options) : RecognitionConfig := {|
  cfg_encoding := getEncodingConfig format;
  cfg_sampleRateHertz := opt_int_or (opt_sampleRate options) (sampleRateHertz speechConfig);
  cfg_languageCode := opt_str_or (opt_languageCode options) (languageCode speechConfig);
  cfg_alternativeLanguageCodes := alternativeLanguageCodes speechConfig;
  cfg_enableAutomaticPunctuation := enableAutomaticPunctuation speechConfig;
  cfg_enableWordTimeOffsets := enableWordTimeOffsets speechConfig;
  cfg_enableWordConfidence := enableWordConfidence speechConfig;
  cfg_model := model speechConfig;
  cfg_useEnhanced := useEnhanced speechConfig;
  cfg_audioChannelCount := 1;
  cfg_enableSeparateRecognitionPerChannel := false;
  cfg_profanityFilter := false;
  cfg_enableSpokenPunctuation := true;
  cfg_enableSpokenEmojis := false
|}.

Definition build_request (audioBuffer : Buffer) (format : string) (options : Options)
  : RecognizeRequest :=
  {| req_config := build_config format options; req_audio_content := audioBuffer |}.

(** A word boundary in seconds:
    [t ? parseFloat(t.seconds || 0) + (t.nanos || 0) / 1e9 : 0]. *)
Definition offset_seconds (t : option Duration) : float :=
  match t with
  | None => 0%float
  | Some d =>
      PrimFloat.add (JsNumber.of_Z (default 0 (seconds d)))
                    (PrimFloat.div (JsNumber.of_Z (default 0 (nanos d))) 1e9%float)
  end.

Definition word_detail (word : WordInfo) : WordDetail := {|
  wd_word := api_word word;
  wd_startTime := offset_seconds (api_startTime word);
  wd_endTime := offset_seconds (api_endTime word);
  wd_confidence := JsNumber.or_else (api_word_confidence word) 0%float
|}.

(** The result for a response without results. *)
Definition empty_result (processingTime : Z) : TranscriptionResult := {|
  success := true;
  transcription := "";
  confidence := 0%float;
  processingTime := processingTime;
  alternatives := [];
  wordDetails := [];
  debug := None;
  chunks := None
|}.

(** The part of [transcribeAudio] that follows the remote call: the
    result returned, or the error thrown by a property access. *)
Definition process_response (audioBuffer : Buffer) (config : RecognitionConfig)
    (processingTime : Z) (response : RecognizeResponse) : JsError + TranscriptionResult :=
  match api_results response with
  | None | Some [] => inr (empty_result processingTime)
  | Some (bestResult :: others) =>
      match api_alternatives bestResult with
      | [] => inl (TypeError "Cannot read properties of undefined (reading 'words')")
      | bestAlternative :: _ =>
          let alternatives :=
            map (fun alt => {| alt_transcript := api_transcript alt;
                               alt_confidence := JsNumber.or_else (api_confidence alt) 0%float |})
                (firstn 2 (skipn 1 (api_alternatives bestResult))) in
          let wordDetails :=
            match api_words bestAlternative with
            | Some words => map word_detail words
            | None => []
            end in
          inr {| success := true;
                 transcription := JsString.or_else (api_transcript bestAlternative) "";
                 confidence := JsNumber.or_else (api_confidence bestAlternative) 0%float;
                 processingTime := processingTime;
                 alternatives := alternatives;
                 wordDetails := wordDetails;
                 debug := Some {| totalResults := length (bestResult :: others);
                                  dbg_encoding := cfg_encoding config;
                                  dbg_sampleRate := cfg_sampleRateHertz config;
                                  dbg_audioSize := blen audioBuffer |};
                 chunks := None |}
      end
  end.

(** The [catch] block of [transcribeAudio]. *)
Definition classify_error (error : JsError) : JsError :=
  if bool_decide (err_code error = Some 3) then
    Error errorMessages.UNSUPPORTED_FORMAT
  else if bool_decide (err_code error = Some 8) then
    Error errorMessages.RATE_LIMIT_EXCEEDED
  else if bool_decide (err_code error = Some 16) then
    Error errorMessages.AUTHENTICATION_FAILED
  else if JsString.includes (err_message error) "rate limit"
          || JsString.includes (err_message error) "quota" then
    Error errorMessages.RATE_LIMIT_EXCEEDED
  else
    Error (errorMessages.TRANSCRIPTION_FAILED +:+ ": " +:+ err_message error).

(** [transcribeAudio(audioBuffer, format, options)]. *)
Definition transcribeAudio (env : Env) (audioBuffer : Buffer) (format : string)
    (options : Options) : M TranscriptionResult :=
  try_catch
    (s <- get_service ;;
     (if negb (Service.initialized s) then initialize env else ret tt) ;;
     startTime <- date_now env ;;
     lift (validateAudioFile audioBuffer format) ;;
     let clientId := opt_str_or (opt_clientId options) "default" in
     checkRateLimit env clientId ;;
     let request := build_request audioBuffer format options in
     s <- get_service ;;
     match Service.speechClient s with
     | None => throw (TypeError "Cannot read properties of null (reading 'recognize')")
     | Some speechClient =>
         response <- external (Recognize speechClient request) (answer_recognize env) ;;
         endTime <- date_now env ;;
         lift (process_response audioBuffer (req_config request) (endTime - startTime)
                                response)
     end)
    (fun error => throw (classify_error error)).

(** The [for] loop that cuts the buffer: [i] is the loop variable, and
    the loop runs while [i < audioBuffer.length].  Every round moves [i]
    forward by [maxChunkSize], so [fuel] rounds are enough when it is at
    least the number of bytes and [maxChunkSize] is positive. *)
Fixpoint split_loop (fuel : nat) (maxChunkSize : Z) (audioBuffer : Buffer) (i : Z)
  : list Buffer :=
  match fuel with
  | O => []
  | S fuel' =>
      if i <? blen audioBuffer then
        slice audioBuffer i (i + maxChunkSize)
          :: split_loop fuel' maxChunkSize audioBuffer (i + maxChunkSize)
      else []
  end.

Definition split_chunks (maxChunkSize : Z) (audioBuffer : Buffer) : list Buffer :=
  split_loop (length audioBuffer) maxChunkSize audioBuffer 0.

(** The options of chunk [i]:
    [{...options, clientId: `${options.clientId || 'default'}_chunk_${i}`}]. *)
Definition chunk_options (options : Options) (i : nat) : Options := {|
  opt_languageCode := opt_languageCode options;
  opt_clientId :=
    Some (opt_str_or (opt_clientId options) "default" +:+ "_chunk_" +:+ JsString.of_nat i);
  opt_sampleRate := opt_sampleRate options
|}.

(** The loop over the chunks: [rest] are the chunks from index [i] on,
    [count] is [chunks.length], and [results] and [totalProcessingTime]
    are the accumulators. *)
Fixpoint process_chunks (env : Env) (format : string) (options : Options)
    (count : nat) (i : nat) (rest : list Buffer)
    (results : list TranscriptionResult) (totalProcessingTime : Z)
  : M (list TranscriptionResult * Z) :=
  match rest with
  | [] => ret (results, totalProcessingTime)
  | chunk :: rest' =>
      chunkResult <- transcribeAudio env chunk format (chunk_options options i) ;;
      let results := results ++ [chunkResult] in
      let totalProcessingTime := totalProcessingTime + processingTime chunkResult in
      (if (Z.of_nat i <? Z.of_nat count - 1) then sleep 1000 else ret tt) ;;
      process_chunks env format options count (S i) rest' results totalProcessingTime
  end.

(** The merge of the chunk results. *)
Definition merge_results (results : list TranscriptionResult) (totalProcessingTime : Z)
  : TranscriptionResult :=
  let combinedTranscription :=
    JsString.join " "
      (filter (fun t => (0 < String.length t)%nat) (map transcription results)) in
  let averageConfidence :=
    if (0 <? length results)%nat then
      PrimFloat.div (fold_left (fun sum r => PrimFloat.add sum (confidence r)) results 0%float)
                    (JsNumber.of_Z (Z.of_nat (length results)))
    else 0%float in
  {| success := true;
     transcription := combinedTranscription;
     confidence := averageConfidence;
     processingTime := totalProcessingTime;
     alternatives := [];
     wordDetails := [];
     debug := None;
     chunks := Some (length results) |}.

(** [transcribeLongAudio(audioBuffer, format, options)]. *)
Definition transcribeLongAudio (env : Env) (audioBuffer : Buffer) (format : string)
    (options : Options) : M TranscriptionResult :=
  try_catch
    (let maxChunkSize := 4 * 1024 * 1024 in
     if blen audioBuffer <=? maxChunkSize then
       transcribeAudio env audioBuffer format options
     else
       let chunks := split_chunks maxChunkSize audioBuffer in
       acc <- process_chunks env format options (length chunks) 0 chunks [] 0 ;;
       ret (merge_results (fst acc) (snd acc)))
    (fun error => throw error).

End GoogleSTTService.

(** ** Environments and worlds used as concrete inputs *)

(** Every remote end answers; the recognizer hears nothing.  The clock
    advances by one second per reading. *)
Definition calm_env : Env := {|
  process_env := fun _ => None;
  Date_now := fun k => 1000 * Z.of_nat k;
  answer_getClient := fun _ => inr tt;
  answer_getProjectId := fun _ => inr "demo-project";
  answer_getAccessToken := fun _ => inr (Some "ya29.demo");
  answer_recognize := fun _ => inr {| api_results := Some [] |}
|}.

(** The client is obtained, and then the project id cannot be fetched. *)
Definition probe_down_env : Env := {|
  process_env := fun _ => None;
  Date_now := fun k => 1000 * Z.of_nat k;
  answer_getClient := fun _ => inr tt;
  answer_getProjectId := fun _ => inl (Error "Unable to detect a Project Id");
  answer_getAccessToken := fun _ => inr (Some "ya29.demo");
  answer_recognize := fun _ => inr {| api_results := Some [] |}
|}.

(** The liveness probe made when [n] calls precede the client request:
    the project id is call [n + 1] and the token is call [n + 2]. *)
Definition probe_succeeds (env : Env) (n : nat) : bool :=
  match answer_getProjectId env (S n), answer_getAccessToken env (S (S n)) with
  | inr _, inr token => env_truthy token
  | _, _ => false
  end.

(** A manager and a service that have been initialized. *)
Definition ready_manager : Manager.t :=
  Manager.mk
    (Some {| ga_id := 0%nat; ga_scopes := workloadIdentityConfig.scopes;
             ga_projectId := None; ga_keyFilename := Some None |})
    (Some {| ac_id := 1%nat; ac_auth := 0%nat |})
    true.

Definition ready_client : SpeechClient :=
  {| sc_id := 2%nat; sc_projectId := "demo-project";
     sc_auth := Some {| ac_id := 1%nat; ac_auth := 0%nat |} |}.

Definition ready : World :=
  mkWorld ready_manager (Service.mk (Some ready_client) true ∅)
          [ GetClient {| ga_id := 0%nat; ga_scopes := workloadIdentityConfig.scopes;
                         ga_projectId := None; ga_keyFilename := Some None |};
            GetProjectId {| ga_id := 0%nat; ga_scopes := workloadIdentityConfig.scopes;
                            ga_projectId := None; ga_keyFilename := Some None |};
            GetAccessToken {| ac_id := 1%nat; ac_auth := 0%nat |};
            GetProjectId {| ga_id := 0%nat; ga_scopes := workloadIdentityConfig.scopes;
                            ga_projectId := None; ga_keyFilename := Some None |} ]
          0 3.

Definition no_options : Options :=
  {| opt_languageCode := None; opt_clientId := None; opt_sampleRate := None |}.

(** The clock advances by two seconds per reading. *)
Definition two_second_env : Env := {|
  process_env := fun _ => None;
  Date_now := fun k => 2000 * Z.of_nat k;
  answer_getClient := fun _ => inr tt;
  answer_getProjectId := fun _ => inr "demo-project";
  answer_getAccessToken := fun _ => inr (Some "ya29.demo");
  answer_recognize := fun _ => inr {| api_results := Some [] |}
|}.

(** [n] successive calls of a method by a caller that catches what is
    thrown: the outcomes, in order. *)
Fixpoint call_times {A} (n : nat) (m : M A) : M (list (JsError + A)) :=
  match n with
  | O => ret []
  | S n' =>
      fun w =>
        match m w with
        | (r, w1) =>
            match call_times n' m w1 with
            | (inr rs, w2) => (inr (r :: rs), w2)
            | (inl e, w2) => (inl e, w2)
            end
        end
  end.

(** The histories that the rate limiter can hold: the empty map of the
    constructor, and what an accepted check stores. *)
Inductive reachable_counts : gmap string (list Z) -> Prop :=
| reachable_new : reachable_counts ∅
| reachable_accept now clientId requestCount requestCount' :
    reachable_counts requestCount ->
    GoogleSTTService.checkRateLimitAt now clientId requestCount = inr requestCount' ->
    reachable_counts requestCount'.

(** No caller has more entries than the per-minute ceiling. *)
Definition counts_bounded (requestCount : gmap string (list Z)) : Prop :=
  forall clientId (history : list Z),
    requestCount !! clientId = Some history ->
    Z.of_nat (length history) <= rateLimitPerMinute speechConfig.

(** The accepted requests of the caller within the hour before [now],
    among the instants at which its checks were accepted. *)
Definition accepted_in_past_hour (now : Z) (accepted : list Z) : nat :=
  length (filter (fun time => now - time < 3600000) accepted).

(** Every call that a computation adds to the trace satisfies [P]. *)
Definition calls_only {A} (P : Call -> bool) (m : M A) : Prop :=
  forall w, exists l, trace (snd (m w)) = trace w ++ l /\ forallb P l = true.

(** The world after [n] more readings of the clock. *)
Definition after_reads (n : nat) (w : World) : World :=
  mkWorld (manager w) (service w) (trace w) (n + clock_reads w) (allocated w).

(** The caller identity that [transcribeAudio] passes to the limiter. *)
Definition caller_of (options : Options) : string :=
  opt_str_or (opt_clientId options) "default".

(** The message of an error that the [catch] block of [transcribeAudio]
    has wrapped as the generic failure. *)
Definition wrapped (message : string) : string :=
  errorMessages.TRANSCRIPTION_FAILED +:+ ": " +:+ message.

(** A buffer of [n] zero bytes. *)
Definition zeros (n : Z) : Buffer := repeat Byte.x00 (Z.to_nat n).

(** An initialized service whose default caller has made sixty requests
    at instant zero. *)
Definition busy : World :=
  mkWorld ready_manager
          (Service.mk (Some ready_client) true {[ "default" := repeat 0 60 ]})
          (trace ready) 0 3.

(** The size limit of a chunk in [transcribeLongAudio]. *)
Definition chunk_threshold : Z := 4 * 1024 * 1024.

(** The bytes of chunk [k] of a buffer. *)
Definition chunk_at (audioBuffer : Buffer) (k : Z) : Buffer :=
  slice audioBuffer (k * chunk_threshold) (k * chunk_threshold + chunk_threshold).

(** A recognizer that hears speech in the calls numbered 4, 8 and 10 and
    silence in every other call; the other ends answer, and the clock
    advances by one second per reading. *)
Definition heard (text : string) (c : float) : JsError + RecognizeResponse :=
  inr {| api_results :=
           Some [ {| api_alternatives :=
                       [ {| api_transcript := text; api_confidence := c;
                            api_words := None |} ] |} ] |}.

Definition talk_env : Env := {|
  process_env := fun _ => None;
  Date_now := fun k => 1000 * Z.of_nat k;
  answer_getClient := fun _ => inr tt;
  answer_getProjectId := fun _ => inr "demo-project";
  answer_getAccessToken := fun _ => inr (Some "ya29.demo");
  answer_recognize := fun n =>
    match n with
    | 4%nat => heard "good" 0.5%float
    | 8%nat => heard "morning" 0.75%float
    | 10%nat => heard "everyone" 0.25%float
    | _ => inr {| api_results := Some [] |}
    end
|}.

(** Sixteen mebibytes of zero bytes: four times the chunk threshold. *)
Definition long_buffer : Buffer := zeros (4 * chunk_threshold).

(** ** The rate-limit middleware of the router ([rateLimit] in
    [stt-routes.js]) *)

Module SttRoutes.

(** What the middleware does with the request: it calls [next()], or it
    answers with status 429 and a [retryAfter] hint. *)
Inductive Verdict : Type :=
| Next
| Reject (status : Z) (retryAfter : Z).

(** The body of [rateLimit] after [now] has been read, for the caller
    [req.ip]: the verdict and the new value of [rateLimitMap]. *)
Definition rateLimitAt (now : Z) (clientId : string)
    (rateLimitMap : gmap string (list Z)) : Verdict * gmap string (list Z) :=
  let rateLimitMap :=
    match rateLimitMap !! clientId with
    | Some _ => rateLimitMap
    | None => <[clientId := []]> rateLimitMap
    end in
  let requests := default [] (rateLimitMap !! clientId) in
  let recentRequests := filter (fun time => now - time < 60000) requests in
  if Z.of_nat (length recentRequests) >=? rateLimitPerMinute speechConfig then
    (Reject 429 60, rateLimitMap)
  else
    (Next, <[clientId := recentRequests ++ [now]]> rateLimitMap).

End SttRoutes.

(** ** The older copy of the credential manager
    ([backend/auth/workload-identity-setup.js])

    In this copy the accessors initialize the manager themselves, and
    [initialize()] sets the flag after the liveness probe.  The probe
    calls [getAccessToken()], which finds the flag unset and calls
    [initialize()] again, so the methods are mutually recursive; the
    model counts the nested calls of [initialize()] with [fuel], and a
    run that needs more is [None]. *)

Module LegacyManager.

Definition P (A : Type) : Type := World -> option ((JsError + A) * World).

(** A computation that makes no nested call. *)
Definition run {A} (m : M A) : P A := fun w => Some (m w).

Definition pbind {A B} (m : P A) (k : A -> P B) : P B :=
  fun w =>
    match m w with
    | Some (inr a, w') => k a w'
    | Some (inl e, w') => Some (inl e, w')
    | None => None
    end.

Definition ptry {A} (body : P A) (handler : JsError -> P A) : P A :=
  fun w =>
    match body w with
    | Some (inr a, w') => Some (inr a, w')
    | Some (inl e, w') => handler e w'
    | None => None
    end.

(** [if (!this.initialized) { await this.initialize(); }]. *)
Definition ensure_initialized (initialize : P unit) : P unit :=
  pbind (run get_manager)
        (fun m => if negb (Manager.initialized m) then initialize else run (ret tt)).

(** [getAccessToken()], given the method [initialize]. *)
Definition getAccessToken_with (env : Env) (initialize : P unit) : P (option string) :=
  ptry
    (pbind (ensure_initialized initialize)
           (fun _ =>
              run (m <- get_manager ;;
                   match Manager.client m with
                   | None =>
                       throw (TypeError "Cannot read properties of null (reading 'getAccessToken')")
                   | Some c => external (GetAccessToken c) (answer_getAccessToken env)
                   end)))
    (fun _ => run (throw (Error "アクセストークンの取得に失敗しました"))).

(** [testAuthentication()], given the method [initialize]. *)
Definition testAuthentication_with (env : Env) (initialize : P unit) : P unit :=
  ptry
    (pbind (run (WorkloadIdentityManager.auth_getProjectId env))
           (fun projectId =>
              pbind (getAccessToken_with env initialize)
                    (fun accessToken =>
                       run (if negb (env_truthy accessToken)
                            then throw (Error "Failed to get access token")
                            else ret tt))))
    (fun error => run (throw error)).

(** [initialize()]. *)
Fixpoint initialize (fuel : nat) (env : Env) : P unit :=
  match fuel with
  | O => fun _ => None
  | S fuel' =>
      ptry
        (pbind
           (run (id <- allocate ;;
                 WorkloadIdentityManager.set_auth
                   (Some (WorkloadIdentityManager.construct_auth env id)) ;;
                 m <- get_manager ;;
                 match Manager.auth m with
                 | None =>
                     throw (TypeError "Cannot read properties of null (reading 'getClient')")
                 | Some a =>
                     external (GetClient a) (answer_getClient env) ;;
                     cid <- allocate ;;
                     WorkloadIdentityManager.set_client
                       (Some {| ac_id := cid; ac_auth := ga_id a |})
                 end))
           (fun _ =>
              pbind (testAuthentication_with env (initialize fuel' env))
                    (fun _ => run (WorkloadIdentityManager.set_initialized true))))
        (fun _ => run (throw (Error "認証の初期化に失敗しました")))
  end.

(** [getAccessToken()]. *)
Definition getAccessToken (fuel : nat) (env : Env) : P (option string) :=
  getAccessToken_with env (initialize fuel env).

(** [getAuthenticatedClient()]. *)
Definition getAuthenticatedClient (fuel : nat) (env : Env) : P (option AuthClient) :=
  ptry
    (pbind (ensure_initialized (initialize fuel env))
           (fun _ => run (m <- get_manager ;; ret (Manager.client m))))
    (fun _ => run (throw (Error "認証済みクライアントの取得に失敗しました"))).

(** [getProjectId()]. *)
Definition getProjectId (fuel : nat) (env : Env) : P string :=
  ptry
    (pbind (ensure_initialized (initialize fuel env))
           (fun _ => run (WorkloadIdentityManager.auth_getProjectId env)))
    (fun _ => run (throw (Error "プロジェクトIDの取得に失敗しました"))).

(** [refreshAuthentication()]. *)
Definition refreshAuthentication (fuel : nat) (env : Env) : P unit :=
  ptry
    (pbind (run (WorkloadIdentityManager.set_initialized false ;;
                 WorkloadIdentityManager.set_client None))
           (fun _ => initialize fuel env))
    (fun _ => run (throw (Error "認証のリフレッシュに失敗しました"))).

End LegacyManager.


(** ** Further methods of the backend *)

(** The object that [getStats()] returns. *)
Record Stats : Type := {
  stat_totalRequests : nat;
  stat_activeClients : nat;
  stat_initialized : bool;
  stat_uptime : float
}.

Module ServiceStatus.

(** [GoogleSTTService.getStats()]; [uptime] is the reading of
    [process.uptime()]. *)
Definition getStats (uptime : float) (s : Service.t) : Stats := {|
  stat_totalRequests :=
    foldl (fun sum requests => (sum + length requests)%nat) 0%nat
          (snd <$> map_to_list (Service.requestCount s));
  stat_activeClients := size (Service.requestCount s);
  stat_initialized := Service.initialized s;
  stat_uptime := uptime
|}.

End ServiceStatus.

Module EnvironmentCheck.

Definition requiredVars : list string :=
  [ "GOOGLE_CLOUD_PROJECT_ID";
    "GOOGLE_CLOUD_WORKLOAD_IDENTITY_POOL_ID";
    "GOOGLE_CLOUD_WORKLOAD_IDENTITY_PROVIDER_ID";
    "GOOGLE_CLOUD_SERVICE_ACCOUNT_EMAIL" ].

(** [validateEnvironmentVariables()] of [workload-identity-setup.js]. *)
Definition validateEnvironmentVariables (env : Env) : JsError + unit :=
  let missingVars :=
    List.filter (fun varName => negb (env_truthy (process_env env varName))) requiredVars in
  if (0 <? length missingVars)%nat then
    inl (Error ("Missing required environment variables: "
                +:+ JsString.join ", " missingVars))
  else inr tt.

End EnvironmentCheck.

(** The world with another credential manager. *)
Definition with_manager (m : Manager.t) (w : World) : World :=
  mkWorld m (service w) (trace w) (clock_reads w) (allocated w).

(** The errors that [transcribeAudio] lets out: plain [Error] objects
    without a code, whose message is one of three catalogue messages or
    the generic failure followed by the message of the cause. *)
Definition classified (e : JsError) : Prop :=
  err_name e = "Error" /\
  err_code e = None /\
  (err_message e = errorMessages.UNSUPPORTED_FORMAT \/
   err_message e = errorMessages.RATE_LIMIT_EXCEEDED \/
   err_message e = errorMessages.AUTHENTICATION_FAILED \/
   exists cause, err_message e = wrapped cause).

(** The number of requests of a caller in the minute before [now]. *)
Definition minute_count (now : Z) (clientId : string)
    (requestCount : gmap string (list Z)) : Z :=
  Z.of_nat (length (filter (fun time => now - time < 60000)
                           (default [] (requestCount !! clientId)))).

(** ** The request gateway of the client ([sttApiService.ts]) *)

Module SttApiService.

(** What the client does towards the outside: a [fetch] of a URL (the
    options of the request are not recorded), or a wait made with
    [setTimeout]. *)
Inductive Event : Type :=
| Fetch (url : string)
| Wait (ms : Z).

(** A response as the client reads it: [ok], [status], [statusText], and
    what [response.json()] gives, the [error] property of the parsed
    body and the body itself, or the error of the parse. *)
Record HttpResponse (Payload : Type) : Type := {
  ok : bool;
  status : nat;
  statusText : string;
  json : JsError + (option string * Payload)
}.
Arguments ok {Payload}.
Arguments status {Payload}.
Arguments statusText {Payload}.
Arguments json {Payload}.

(** The network: the answer to the event made when [n] events precede
    it.  A [fetch] that is aborted by the timer of [fetchWithRetry]
    answers with an error named [AbortError]. *)
Definition Network (Payload : Type) : Type := nat -> JsError + HttpResponse Payload.

(** The fields set by the constructor. *)
Definition baseUrl (prod : bool) : string :=
  if prod then "https://your-api-domain.com/api/stt"
  else "http://localhost:3001/api/stt".
Definition timeout : Z := 30000.
Definition retryAttempts : Z := 3.

(** [fetchWithRetry(endpoint, options, attempt)]: the result and the
    events made, given the events made before.  [fuel] bounds the
    nested calls; [None] is a run that needs more. *)
Fixpoint fetchWithRetry {Payload} (fuel : nat) (net : Network Payload) (prod : bool)
    (endpoint : string) (attempt : Z) (events : list Event)
  : option ((JsError + HttpResponse Payload) * list Event) :=
  let events1 := events ++ [Fetch (baseUrl prod +:+ endpoint)] in
  match net (length events) with
  | inr response => Some (inr response, events1)
  | inl error =>
      if attempt <? retryAttempts then
        let delay := 2 ^ attempt * 1000 in
        match fuel with
        | O => None
        | S fuel' =>
            fetchWithRetry fuel' net prod endpoint (attempt + 1) (events1 ++ [Wait delay])
        end
      else Some (inl error, events1)
  end.

(** [handleError(error)], for a thrown value that is an [Error]. *)
Definition handleError (error : JsError) : JsError :=
  if String.eqb (err_name error) "AbortError" then
    Error "リクエストがタイムアウトしました。ネットワーク接続を確認してください。"
  else if JsString.includes (err_message error) "Failed to fetch" then
    Error "STTサーバーに接続できません。ネットワーク接続を確認してください。"
  else if JsString.includes (err_message error) "rate limit" then
    Error "リクエスト制限に達しました。しばらく待ってから再試行してください。"
  else if JsString.includes (err_message error) "file too large" then
    Error "音声ファイルが大きすぎます。10MB以下のファイルを使用してください。"
  else if JsString.includes (err_message error) "unsupported format" then
    Error "対応していない音声フォーマットです。WebM、WAV、MP3形式を使用してください。"
  else error.

(** [detectAudioFormat(blob)], from [blob.type]. *)
Definition detectAudioFormat (blobType : string) : string :=
  let mimeType := JsString.toLowerCase blobType in
  if JsString.includes mimeType "webm" then "webm"
  else if JsString.includes mimeType "wav" then "wav"
  else if JsString.includes mimeType "mp3" || JsString.includes mimeType "mpeg" then "mp3"
  else if JsString.includes mimeType "ogg" then "ogg"
  else "webm".

(** The part of [transcribeAudioFile] and [transcribeBase64Audio] that
    follows [fetchWithRetry]: the parsed body, or the error thrown
    inside the [try] block. *)
Definition read_response {Payload} (response : HttpResponse Payload) : JsError + Payload :=
  if negb (ok response) then
    let errorData_error :=
      match json response with
      | inr (error, _) => error
      | inl _ => None
      end in
    inl (Error (match errorData_error with
                | Some message =>
                    JsString.or_else message
                      ("HTTP " +:+ JsString.of_nat (status response) +:+ ": "
                       +:+ statusText response)
                | None =>
                    "HTTP " +:+ JsString.of_nat (status response) +:+ ": "
                    +:+ statusText response
                end))
  else
    match json response with
    | inr (_, result) => inr result
    | inl e => inl e
    end.

(** [transcribeAudioFile(audioBlob, format, language)]: the request goes
    to [/transcribe]; every error leaves through [handleError]. *)
Definition transcribeAudioFile {Payload} (net : Network Payload) (prod : bool)
    (events : list Event)
  : option ((JsError + Payload) * list Event) :=
  match fetchWithRetry 3 net prod "/transcribe" 1 events with
  | None => None
  | Some (inl error, events') => Some (inl (handleError error), events')
  | Some (inr response, events') =>
      match read_response response with
      | inl error => Some (inl (handleError error), events')
      | inr result => Some (inr result, events')
      end
  end.

End SttApiService.


(** The recognizer refuses every call for lack of quota (status code 8,
    [RESOURCE_EXHAUSTED]); the other ends answer. *)
Definition quota_env : Env := {|
  process_env := fun _ => None;
  Date_now := fun k => 1000 * Z.of_nat k;
  answer_getClient := fun _ => inr tt;
  answer_getProjectId := fun _ => inr "demo-project";
  answer_getAccessToken := fun _ => inr (Some "ya29.demo");
  answer_recognize := fun _ =>
    inl (mkJsError "Error" (Some 8) "8 RESOURCE_EXHAUSTED: Quota exceeded")
|}.




(** A server that answers every request with status 500 and the
    rate-limit message of the service wrapped by [transcribeAudio], as
    the controller sends it. *)
Definition overloaded_server : SttApiService.Network unit := fun _ =>
  inr {| SttApiService.ok := false;
         SttApiService.status := 500;
         SttApiService.statusText := "Internal Server Error";
         SttApiService.json := inr (Some (wrapped errorMessages.RATE_LIMIT_EXCEEDED), tt) |}.


(** * Properties *)

(** ** Strings *)

Lemma lower_ascii_idemp c :
  JsString.lower_ascii (JsString.lower_ascii c) = JsString.lower_ascii c.
Proof.
  destruct c as [[] [] [] [] [] [] [] []]; reflexivity.
Qed.

Lemma toLowerCase_idemp s :
  JsString.toLowerCase (JsString.toLowerCase s) = JsString.toLowerCase s.
Proof.
  induction s as [|c s IH]; simpl; [reflexivity|].
  now rewrite lower_ascii_idemp, IH.
Qed.

Example ready_is_reached :
  GoogleSTTService.initialize calm_env boot = (inr tt, ready).
Proof. reflexivity. Qed.

Example getEncodingConfig_flac :
  GoogleSTTService.getEncodingConfig "flac" = JsStr "WEBM_OPUS".
Proof. reflexivity. Qed.

Example validate_small :
  GoogleSTTService.validateAudioFile [Byte.x00; Byte.x01] "WebM" = inr true.
Proof. vm_compute. reflexivity. Qed.

Example includes_quota : JsString.includes "daily quota exceeded" "quota" = true.
Proof. reflexivity. Qed.

Example includes_local_message :
  JsString.includes errorMessages.RATE_LIMIT_EXCEEDED "rate limit" = false.
Proof. vm_compute. reflexivity. Qed.

(** ** The encoding table and the format check *)

(** The four formats of the table. *)
Lemma getEncodingConfig_table :
  GoogleSTTService.getEncodingConfig "webm" = JsStr "WEBM_OPUS" /\
  GoogleSTTService.getEncodingConfig "wav" = JsStr "LINEAR16" /\
  GoogleSTTService.getEncodingConfig "mp3" = JsStr "MP3" /\
  GoogleSTTService.getEncodingConfig "ogg" = JsStr "OGG_OPUS".
Proof. repeat split; reflexivity. Qed.

(** A format whose lower-case form is neither a key of the table nor a
    property inherited from [Object.prototype] gets the default. *)
Lemma getEncodingConfig_default format :
  assoc_get (JsString.toLowerCase format) GoogleSTTService.formatMap = None ->
  assoc_get (JsString.toLowerCase format) object_prototype = None ->
  GoogleSTTService.getEncodingConfig format = JsStr "WEBM_OPUS".
Proof.
  intros Hown Hproto. unfold GoogleSTTService.getEncodingConfig, js_get.
  now rewrite Hown, Hproto.
Qed.

(** C7: the claim sends every string outside the table to the default
    encoding.  The table is an object literal, read with
    [formatMap[key] || 'WEBM_OPUS'], so a key that [Object.prototype]
    defines is found on the prototype chain: for the format
    ["constructor"] the method returns the function [Object], not the
    default encoding (and not a string at all). *)
Theorem getEncodingConfig_inherited_key :
  GoogleSTTService.getEncodingConfig "constructor" = JsFunction "Object" /\
  GoogleSTTService.getEncodingConfig "constructor" <> JsStr "WEBM_OPUS" /\
  GoogleSTTService.getEncodingConfig "__PROTO__" = JsObject "Object.prototype".
Proof. repeat split; [discriminate]. Qed.

(** Both the validator and the table read the format through
    [toLowerCase] only. *)
Lemma validateAudioFile_lower audioBuffer format :
  GoogleSTTService.validateAudioFile audioBuffer (JsString.toLowerCase format)
  = GoogleSTTService.validateAudioFile audioBuffer format.
Proof.
  unfold GoogleSTTService.validateAudioFile. now rewrite toLowerCase_idemp.
Qed.

Lemma getEncodingConfig_lower format :
  GoogleSTTService.getEncodingConfig (JsString.toLowerCase format)
  = GoogleSTTService.getEncodingConfig format.
Proof.
  unfold GoogleSTTService.getEncodingConfig. now rewrite toLowerCase_idemp.
Qed.

(** C10: the format check of the validator and the encoding lookup are
    case-insensitive: a format and its lower-case form get the same
    verdict and the same encoding, for every buffer; ["WAV"] passes the
    validator and maps to [LINEAR16]. *)
Theorem format_handling_ignores_case (audioBuffer : Buffer) (format : string) :
  GoogleSTTService.validateAudioFile audioBuffer format
    = GoogleSTTService.validateAudioFile audioBuffer (JsString.toLowerCase format) /\
  GoogleSTTService.getEncodingConfig format
    = GoogleSTTService.getEncodingConfig (JsString.toLowerCase format) /\
  array_includes (supportedFormats speechConfig) (JsString.toLowerCase "WAV") = true /\
  GoogleSTTService.validateAudioFile [Byte.x52; Byte.x49; Byte.x46; Byte.x46] "WAV" = inr true /\
  GoogleSTTService.getEncodingConfig "WAV" = JsStr "LINEAR16".
Proof.
  split; [symmetry; apply validateAudioFile_lower|].
  split; [symmetry; apply getEncodingConfig_lower|].
  repeat split; vm_compute; reflexivity.
Qed.

(** Two spellings that differ in case only are treated alike. *)
Lemma same_lower_same_treatment audioBuffer f g :
  JsString.toLowerCase f = JsString.toLowerCase g ->
  GoogleSTTService.validateAudioFile audioBuffer f
    = GoogleSTTService.validateAudioFile audioBuffer g /\
  GoogleSTTService.getEncodingConfig f = GoogleSTTService.getEncodingConfig g.
Proof.
  intros H. unfold GoogleSTTService.validateAudioFile, GoogleSTTService.getEncodingConfig.
  now rewrite H.
Qed.

(** ** The credential manager *)



(** C8: the claim has [refresh()] clear the credential material and run
    a fresh [initialize()].  The statement that should clear the auth
    handle names the unbound identifier [tiis]; evaluating it throws, the
    [catch] block turns that into the refresh error, and [initialize()]
    is never reached.  In every world the method fails, it makes no
    call, and it leaves the manager uninitialized with the old auth
    handle still in place. *)
Theorem refreshAuthentication_always_fails (env : Env) (w : World) :
  WorkloadIdentityManager.refreshAuthentication env w
  = (inl (Error "認証のリフレッシュに失敗しました"),
     mkWorld (Manager.mk (Manager.auth (manager w)) None false)
             (service w) (trace w) (clock_reads w) (allocated w)).
Proof. reflexivity. Qed.

(** With every remote end answering, a manager that is ready is left
    unusable by a refresh. *)
Example refresh_breaks_ready_manager :
  let r := WorkloadIdentityManager.refreshAuthentication calm_env ready in
  WorkloadIdentityManager.isAuthenticated (manager ready) = true /\
  fst r = inl (Error "認証のリフレッシュに失敗しました") /\
  WorkloadIdentityManager.isAuthenticated (manager (snd r)) = false /\
  Manager.auth (manager (snd r)) = Manager.auth (manager ready) /\
  trace (snd r) = trace ready.
Proof. repeat split. Qed.

(** Unfolding of the primitives of the computation type. *)
Ltac js_unfold :=
  unfold WorkloadIdentityManager.set_auth, WorkloadIdentityManager.set_client,
    WorkloadIdentityManager.set_initialized, GoogleSTTService.date_now, sleep in *;
  unfold bind, try_catch, ret, throw, lift, external, allocate,
    get_manager, set_manager, get_service, set_service in *.

(** The steps of [initialize()] on a manager that is not initialized. *)
Lemma manager_initialize_run (env : Env) (w : World) :
  Manager.initialized (manager w) = false ->
  let a := WorkloadIdentityManager.construct_auth env (allocated w) in
  let c := {| ac_id := S (allocated w); ac_auth := ga_id a |} in
  let n := length (trace w) in
  WorkloadIdentityManager.initialize env w =
    match answer_getClient env n with
    | inl _ =>
        (inl (Error "認証の初期化に失敗しました"),
         mkWorld (Manager.mk (Some a) (Manager.client (manager w)) false)
                 (service w) (trace w ++ [GetClient a]) (clock_reads w)
                 (S (allocated w)))
    | inr _ =>
        match answer_getProjectId env (S n) with
        | inl _ =>
            (inl (Error "認証の初期化に失敗しました"),
             mkWorld (Manager.mk (Some a) (Some c) true)
                     (service w) ((trace w ++ [GetClient a]) ++ [GetProjectId a])
                     (clock_reads w) (S (S (allocated w))))
        | inr _ =>
            (match answer_getAccessToken env (S (S n)) with
             | inr token =>
                 if env_truthy token then inr tt
                 else inl (Error "認証の初期化に失敗しました")
             | inl _ => inl (Error "認証の初期化に失敗しました")
             end,
             mkWorld (Manager.mk (Some a) (Some c) true)
                     (service w)
                     (((trace w ++ [GetClient a]) ++ [GetProjectId a]) ++ [GetAccessToken c])
                     (clock_reads w) (S (S (allocated w))))
        end
    end.
Proof.
  intros Hinit a c n. subst a c n.
  destruct w as [[au cl ini] s tr k al]. simpl in Hinit. subst ini.
  unfold WorkloadIdentityManager.initialize, WorkloadIdentityManager.testAuthentication,
    WorkloadIdentityManager.getAccessToken, WorkloadIdentityManager.auth_getProjectId.
  js_unfold.
  set (a := WorkloadIdentityManager.construct_auth env al).
  cbn -[WorkloadIdentityManager.construct_auth].
  destruct (answer_getClient env (length tr)); [reflexivity|].
  rewrite !length_app; cbn [length]. rewrite !Nat.add_1_r.
  destruct (answer_getProjectId env (S (length tr))); [reflexivity|].
  destruct (answer_getAccessToken env (S (S (length tr)))) as [e|token]; [reflexivity|].
  destruct (env_truthy token); reflexivity.
Qed.

(** C3, as the claim states it, fails: the client is obtained, the
    project id cannot be fetched, [initialize()] throws, and the manager
    answers [isAuthenticated()] with true afterwards. *)
Lemma probe_failure_leaves_manager_ready :
  probe_succeeds probe_down_env (length (trace boot)) = false /\
  fst (WorkloadIdentityManager.initialize probe_down_env boot)
    = inl (Error "認証の初期化に失敗しました") /\
  WorkloadIdentityManager.isAuthenticated
    (manager (snd (WorkloadIdentityManager.initialize probe_down_env boot))) = true /\
  ~ (forall env w,
       Manager.initialized (manager w) = false ->
       probe_succeeds env (length (trace w)) = false ->
       WorkloadIdentityManager.isAuthenticated
         (manager (snd (WorkloadIdentityManager.initialize env w))) = false).
Proof.
  repeat split.
  intros H. specialize (H probe_down_env boot eq_refl eq_refl). discriminate H.
Qed.

(** C3, amended: on a manager that is not initialized, [initialize()]
    sets the flag as soon as the client has been obtained, before the
    liveness probe runs.  If the client cannot be obtained the method
    throws and [isAuthenticated()] is false afterwards.  If the client
    is obtained, [isAuthenticated()] is true afterwards whatever the
    probe does, the method returns exactly when the probe succeeds, and
    it throws the initialization error when the probe fails. *)
Theorem initialize_marks_ready_before_probe (env : Env) (w : World) :
  Manager.initialized (manager w) = false ->
  let r := WorkloadIdentityManager.initialize env w in
  match answer_getClient env (length (trace w)) with
  | inl _ =>
      fst r = inl (Error "認証の初期化に失敗しました") /\
      WorkloadIdentityManager.isAuthenticated (manager (snd r)) = false
  | inr _ =>
      WorkloadIdentityManager.isAuthenticated (manager (snd r)) = true /\
      (probe_succeeds env (length (trace w)) = true -> fst r = inr tt) /\
      (probe_succeeds env (length (trace w)) = false ->
       fst r = inl (Error "認証の初期化に失敗しました"))
  end.
Proof.
  intros Hinit r. subst r.
  rewrite (manager_initialize_run env w Hinit). unfold probe_succeeds.
  destruct (answer_getClient env (length (trace w))); [split; reflexivity|].
  destruct (answer_getProjectId env (S (length (trace w)))).
  { repeat split; intros; try reflexivity; discriminate. }
  destruct (answer_getAccessToken env (S (S (length (trace w))))) as [e|token].
  { repeat split; intros; try reflexivity; discriminate. }
  destruct (env_truthy token); repeat split; intros; try reflexivity; discriminate.
Qed.

Lemma initialize_marks_ready_before_probe_at_boot :
  fst (WorkloadIdentityManager.initialize probe_down_env boot)
    = inl (Error "認証の初期化に失敗しました") /\
  WorkloadIdentityManager.isAuthenticated
    (manager (snd (WorkloadIdentityManager.initialize probe_down_env boot))) = true /\
  fst (WorkloadIdentityManager.initialize calm_env boot) = inr tt /\
  WorkloadIdentityManager.isAuthenticated
    (manager (snd (WorkloadIdentityManager.initialize calm_env boot))) = true.
Proof.
  destruct (initialize_marks_ready_before_probe probe_down_env boot eq_refl)
    as (Hready & _ & Hfail).
  destruct (initialize_marks_ready_before_probe calm_env boot eq_refl)
    as (Hready' & Hok & _).
  split; [exact (Hfail eq_refl)|].
  split; [exact Hready|].
  split; [exact (Hok eq_refl)|exact Hready'].
Defined.

(** ** The rate limiter *)

(** What an accepted check stores for the caller: the entries of the
    last minute and the current instant. *)
Lemma checkRateLimitAt_accept now clientId (requestCount requestCount' : gmap string (list Z)) :
  GoogleSTTService.checkRateLimitAt now clientId requestCount = inr requestCount' ->
  requestCount' =
    <[clientId :=
        filter (fun time => now - time < 60000) (default [] (requestCount !! clientId))
        ++ [now]]> requestCount /\
  Z.of_nat (length (filter (fun time => now - time < 60000)
                           (default [] (requestCount !! clientId)))) < 60.
Proof.
  unfold GoogleSTTService.checkRateLimitAt. cbn [rateLimitPerMinute rateLimitPerHour speechConfig].
  destruct (Z.geb_spec (Z.of_nat (length (filter (fun time => now - time < 60000)
                           (default [] (requestCount !! clientId))))) 60); [discriminate|].
  destruct (Z.of_nat (length (filter (fun time => now - time < 3600000)
                           (default [] (requestCount !! clientId)))) >=? 1000); [discriminate|].
  intros [= <-]. split; [reflexivity | lia].
Qed.

Lemma counts_bounded_empty : counts_bounded ∅.
Proof. intros clientId history H. rewrite lookup_empty in H. discriminate. Qed.

Lemma counts_bounded_accept now clientId (requestCount requestCount' : gmap string (list Z)) :
  counts_bounded requestCount ->
  GoogleSTTService.checkRateLimitAt now clientId requestCount = inr requestCount' ->
  counts_bounded requestCount'.
Proof.
  intros Hb Hacc. apply checkRateLimitAt_accept in Hacc as [-> Hlt].
  intros id history Hlook.
  destruct (decide (clientId = id)) as [->|Hne].
  - rewrite lookup_insert_eq in Hlook. injection Hlook as <-.
    rewrite length_app. cbn [length rateLimitPerMinute speechConfig]. lia.
  - rewrite lookup_insert_ne in Hlook by exact Hne. exact (Hb id history Hlook).
Qed.

Lemma reachable_counts_bounded (requestCount : gmap string (list Z)) :
  reachable_counts requestCount -> counts_bounded requestCount.
Proof.
  induction 1 as [|now clientId rc rc' _ IH Hacc].
  - apply counts_bounded_empty.
  - exact (counts_bounded_accept now clientId rc rc' IH Hacc).
Qed.

(** In a history that the limiter can hold, the per-hour ceiling never
    rejects: a check is refused only when the last minute is full. *)
Lemma hourly_ceiling_is_dead (requestCount : gmap string (list Z)) now clientId :
  reachable_counts requestCount ->
  Z.of_nat (length (filter (fun time => now - time < 60000)
                           (default [] (requestCount !! clientId)))) < 60 ->
  exists requestCount',
    GoogleSTTService.checkRateLimitAt now clientId requestCount = inr requestCount'.
Proof.
  intros Hreach Hminute.
  pose proof (reachable_counts_bounded _ Hreach clientId) as Hb.
  unfold GoogleSTTService.checkRateLimitAt.
  cbn [rateLimitPerMinute rateLimitPerHour speechConfig] in *.
  destruct (Z.geb_spec (Z.of_nat (length (filter (fun time => now - time < 60000)
                           (default [] (requestCount !! clientId))))) 60); [lia|].
  destruct (Z.geb_spec (Z.of_nat (length (filter (fun time => now - time < 3600000)
                           (default [] (requestCount !! clientId))))) 1000) as [Hge|_].
  - exfalso.
    pose proof (length_filter (fun time => now - time < 3600000)
                  (default [] (requestCount !! clientId))) as Hlen.
    destruct (requestCount !! clientId) as [history|] eqn:Hlook;
      cbn [default from_option id] in *.
    + specialize (Hb history eq_refl). lia.
    + cbn in Hge. lia.
  - eexists. reflexivity.
Qed.

(** C1: the claim has the stored state keep every accepted timestamp of
    the past hour, so that the thousandth accepted request of an hour
    makes the next one fail.  The method stores [recentRequests], the
    result of the one-minute filter, back into the map.  A caller that
    asks every two seconds, 1001 times, is accepted every time; the
    last call finds 1000 accepted requests in the hour before it, and
    after it the stored history holds the 30 entries of the last minute
    only. *)
Theorem hourly_limit_not_enforced :
  let run := call_times 1001 (GoogleSTTService.checkRateLimit two_second_env "203.0.113.7") boot in
  fst run = inr (repeat (inr true) 1001) /\
  accepted_in_past_hour (Date_now two_second_env 1000)
    (map (Date_now two_second_env) (seq 0 1000)) = 1000%nat /\
  length <$> (Service.requestCount (service (snd run)) !! "203.0.113.7") = Some 30%nat.
Proof.
  vm_compute. repeat split.
Qed.

(** ** Which calls a computation can make *)

Section CallsOnly.
Context (P : Call -> bool).

Lemma calls_only_silent {A} (m : M A) :
  (forall w, trace (snd (m w)) = trace w) -> calls_only P m.
Proof.
  intros H w. exists []. rewrite H, app_nil_r. split; reflexivity.
Qed.

Lemma calls_only_ret {A} (a : A) : calls_only P (ret a).
Proof. apply calls_only_silent. reflexivity. Qed.

Lemma calls_only_throw {A} (e : JsError) : calls_only P (@throw A e).
Proof. apply calls_only_silent. reflexivity. Qed.

Lemma calls_only_lift {A} (r : JsError + A) : calls_only P (lift r).
Proof. apply calls_only_silent. reflexivity. Qed.

Lemma calls_only_get_manager : calls_only P get_manager.
Proof. apply calls_only_silent. reflexivity. Qed.

Lemma calls_only_set_manager m : calls_only P (set_manager m).
Proof. apply calls_only_silent. reflexivity. Qed.

Lemma calls_only_get_service : calls_only P get_service.
Proof. apply calls_only_silent. reflexivity. Qed.

Lemma calls_only_set_service s : calls_only P (set_service s).
Proof. apply calls_only_silent. reflexivity. Qed.

Lemma calls_only_allocate : calls_only P allocate.
Proof. apply calls_only_silent. reflexivity. Qed.

Lemma calls_only_date_now env : calls_only P (GoogleSTTService.date_now env).
Proof. apply calls_only_silent. reflexivity. Qed.

Lemma calls_only_external {A} (c : Call) (answer : nat -> JsError + A) :
  P c = true -> calls_only P (external c answer).
Proof.
  intros Hc w. exists [c]. split; [reflexivity|]. cbn. now rewrite Hc.
Qed.

Lemma calls_only_bind {A B} (m : M A) (k : A -> M B) :
  calls_only P m -> (forall a, calls_only P (k a)) -> calls_only P (bind m k).
Proof.
  intros Hm Hk w. unfold bind.
  destruct (Hm w) as (l1 & Ht1 & Hp1).
  destruct (m w) as [[e|a] w1]; cbn [snd] in *.
  - exists l1. now split.
  - destruct (Hk a w1) as (l2 & Ht2 & Hp2).
    exists (l1 ++ l2). rewrite Ht2, Ht1, app_assoc. split; [reflexivity|].
    rewrite forallb_app, Hp1, Hp2. reflexivity.
Qed.

Lemma calls_only_try_catch {A} (body : M A) (handler : JsError -> M A) :
  calls_only P body -> (forall e, calls_only P (handler e)) ->
  calls_only P (try_catch body handler).
Proof.
  intros Hm Hk w. unfold try_catch.
  destruct (Hm w) as (l1 & Ht1 & Hp1).
  destruct (body w) as [[e|a] w1]; cbn [snd] in *.
  - destruct (Hk e w1) as (l2 & Ht2 & Hp2).
    exists (l1 ++ l2). rewrite Ht2, Ht1, app_assoc. split; [reflexivity|].
    rewrite forallb_app, Hp1, Hp2. reflexivity.
  - exists l1. now split.
Qed.

End CallsOnly.

Create HintDb calls discriminated.
#[local] Hint Resolve calls_only_ret calls_only_throw calls_only_lift
  calls_only_get_manager calls_only_set_manager calls_only_get_service
  calls_only_set_service calls_only_allocate calls_only_date_now : calls.

(** Splits a computation along its binds and branches. *)
Ltac calls_step :=
  lazymatch goal with
  | |- calls_only _ (bind _ _) => apply calls_only_bind; [|intros ?]
  | |- calls_only _ (try_catch _ _) => apply calls_only_try_catch; [|intros ?]
  | |- calls_only _ (external _ _) => apply calls_only_external; reflexivity
  | |- calls_only _ (match ?x with _ => _ end) => destruct x
  | |- calls_only _ _ => solve [auto with calls]
  end.

Lemma manager_initialize_calls env :
  calls_only is_credential_call (WorkloadIdentityManager.initialize env).
Proof.
  unfold WorkloadIdentityManager.initialize, WorkloadIdentityManager.testAuthentication,
    WorkloadIdentityManager.getAccessToken, WorkloadIdentityManager.auth_getProjectId,
    WorkloadIdentityManager.set_auth, WorkloadIdentityManager.set_client,
    WorkloadIdentityManager.set_initialized.
  repeat calls_step.
Qed.

Lemma service_initialize_calls env :
  calls_only is_credential_call (GoogleSTTService.initialize env).
Proof.
  unfold GoogleSTTService.initialize.
  apply calls_only_try_catch; [|intros ?; auto with calls].
  apply calls_only_bind; [apply manager_initialize_calls|intros ?].
  unfold WorkloadIdentityManager.getAuthenticatedClient,
    WorkloadIdentityManager.getProjectId, WorkloadIdentityManager.auth_getProjectId.
  repeat calls_step.
Qed.

(** ** [transcribeAudio] *)

(** The [catch] block wraps the messages of the validator and of the
    limiter: they carry no code and contain neither [rate limit] nor
    [quota]. *)
Lemma classify_local_errors :
  GoogleSTTService.classify_error (Error errorMessages.FILE_TOO_LARGE)
    = Error (wrapped errorMessages.FILE_TOO_LARGE) /\
  GoogleSTTService.classify_error (Error errorMessages.UNSUPPORTED_FORMAT)
    = Error (wrapped errorMessages.UNSUPPORTED_FORMAT) /\
  GoogleSTTService.classify_error (Error errorMessages.AUDIO_TOO_LONG)
    = Error (wrapped errorMessages.AUDIO_TOO_LONG) /\
  GoogleSTTService.classify_error (Error errorMessages.RATE_LIMIT_EXCEEDED)
    = Error (wrapped errorMessages.RATE_LIMIT_EXCEEDED).
Proof. repeat split; vm_compute; reflexivity. Qed.

(** An initialized service whose validator rejects the input. *)
Lemma transcribeAudio_rejected_by_validator env audioBuffer format options w e :
  Service.initialized (service w) = true ->
  GoogleSTTService.validateAudioFile audioBuffer format = inl e ->
  GoogleSTTService.transcribeAudio env audioBuffer format options w
  = (inl (GoogleSTTService.classify_error e), after_reads 1 w).
Proof.
  intros Hinit Hval.
  unfold GoogleSTTService.transcribeAudio. js_unfold.
  rewrite Hinit, Hval. reflexivity.
Qed.

(** An initialized service whose limiter rejects the caller. *)
Lemma transcribeAudio_rejected_by_limiter env audioBuffer format options w ok e :
  Service.initialized (service w) = true ->
  GoogleSTTService.validateAudioFile audioBuffer format = inr ok ->
  GoogleSTTService.checkRateLimitAt (Date_now env (S (clock_reads w))) (caller_of options)
    (Service.requestCount (service w)) = inl e ->
  GoogleSTTService.transcribeAudio env audioBuffer format options w
  = (inl (GoogleSTTService.classify_error e), after_reads 2 w).
Proof.
  intros Hinit Hval Hrate.
  unfold GoogleSTTService.transcribeAudio, GoogleSTTService.checkRateLimit. js_unfold.
  rewrite Hinit, Hval. cbn. unfold caller_of in Hrate. rewrite Hrate. reflexivity.
Qed.

(** An initialized service whose validator and limiter accept: the
    recognizer is called once, and its answer decides the outcome. *)
Lemma transcribeAudio_run env audioBuffer format options w speechClient ok requestCount' :
  Service.initialized (service w) = true ->
  Service.speechClient (service w) = Some speechClient ->
  GoogleSTTService.validateAudioFile audioBuffer format = inr ok ->
  GoogleSTTService.checkRateLimitAt (Date_now env (S (clock_reads w))) (caller_of options)
    (Service.requestCount (service w)) = inr requestCount' ->
  let request := GoogleSTTService.build_request audioBuffer format options in
  let called :=
    mkWorld (manager w) (Service.mk (Some speechClient) true requestCount')
            (trace w ++ [Recognize speechClient request])
            (2 + clock_reads w) (allocated w) in
  GoogleSTTService.transcribeAudio env audioBuffer format options w
  = match answer_recognize env (length (trace w)) with
    | inl e => (inl (GoogleSTTService.classify_error e), called)
    | inr response =>
        match GoogleSTTService.process_response audioBuffer (req_config request)
                (Date_now env (2 + clock_reads w) - Date_now env (clock_reads w)) response with
        | inl e => (inl (GoogleSTTService.classify_error e), after_reads 1 called)
        | inr result => (inr result, after_reads 1 called)
        end
    end.
Proof.
  intros Hinit Hclient Hval Hrate request called. subst request called.
  unfold GoogleSTTService.transcribeAudio, GoogleSTTService.checkRateLimit. js_unfold.
  rewrite Hinit, Hval. cbn. unfold caller_of in Hrate. rewrite Hrate. cbn.
  rewrite Hinit, Hclient. cbn.
  destruct (answer_recognize env (length (trace w))) as [e|response]; [reflexivity|].
  cbn.
  destruct (GoogleSTTService.process_response _ _ _ response); reflexivity.
Qed.

Lemma blen_zeros n : 0 <= n -> blen (zeros n) = n.
Proof.
  intros Hn. unfold blen, zeros. rewrite repeat_length. lia.
Qed.

Lemma validateAudioFile_oversize audioBuffer format :
  blen audioBuffer > maxFileSize speechConfig ->
  GoogleSTTService.validateAudioFile audioBuffer format
  = inl (Error errorMessages.FILE_TOO_LARGE).
Proof.
  intros Hbig. unfold GoogleSTTService.validateAudioFile.
  destruct (Z.gtb_spec (blen audioBuffer) (maxFileSize speechConfig)); [reflexivity|lia].
Qed.

(** The limiter throws one error only. *)
Lemma checkRateLimitAt_error now clientId (requestCount : gmap string (list Z)) e :
  GoogleSTTService.checkRateLimitAt now clientId requestCount = inl e ->
  e = Error errorMessages.RATE_LIMIT_EXCEEDED.
Proof.
  unfold GoogleSTTService.checkRateLimitAt.
  repeat match goal with |- context [if ?b then _ else _] => destruct b end;
    congruence.
Qed.

(** The lazy initialization at the head of [transcribeAudio]. *)
Lemma transcribeAudio_invalid_input_run env audioBuffer format options e w :
  GoogleSTTService.validateAudioFile audioBuffer format = inl e ->
  GoogleSTTService.transcribeAudio env audioBuffer format options w
  = match (if negb (Service.initialized (service w))
           then GoogleSTTService.initialize env else ret tt) w with
    | (inl e1, w1) => (inl (GoogleSTTService.classify_error e1), w1)
    | (inr _, w1) => (inl (GoogleSTTService.classify_error e), after_reads 1 w1)
    end.
Proof.
  intros Hval.
  unfold GoogleSTTService.transcribeAudio. rewrite Hval.
  unfold try_catch, bind, get_service, lift, throw, GoogleSTTService.date_now.
  destruct ((if negb (Service.initialized (service w))
             then GoogleSTTService.initialize env else ret tt) w) as [[e1|u] w1];
    reflexivity.
Qed.

(** When the validator rejects the input, [transcribeAudio] throws, and
    the calls it has made are those of the lazy initialization. *)
Lemma transcribeAudio_invalid_input env audioBuffer format options e w :
  GoogleSTTService.validateAudioFile audioBuffer format = inl e ->
  (exists e', fst (GoogleSTTService.transcribeAudio env audioBuffer format options w) = inl e') /\
  exists l,
    trace (snd (GoogleSTTService.transcribeAudio env audioBuffer format options w))
      = trace w ++ l /\
    forallb is_credential_call l = true.
Proof.
  intros Hval.
  rewrite (transcribeAudio_invalid_input_run env audioBuffer format options e w Hval).
  assert (Hpre : calls_only is_credential_call
                   (if negb (Service.initialized (service w))
                    then GoogleSTTService.initialize env else ret tt)).
  { destruct (negb _); [apply service_initialize_calls|auto with calls]. }
  destruct (Hpre w) as (l & Htrace & Hcred).
  destruct ((if negb (Service.initialized (service w))
             then GoogleSTTService.initialize env else ret tt) w) as [[e1|u] w1];
    cbn [fst snd] in *.
  - split; [eexists; reflexivity|]. exists l. auto.
  - split; [eexists; reflexivity|]. exists l. auto.
Qed.

(** C2, as the claim states it, fails: on an initialized service the
    error of an oversized buffer is not the validator's error, and the
    error of a caller over the local ceiling is not the limiter's. *)
Lemma local_errors_are_rewrapped :
  blen (zeros (maxFileSize speechConfig + 1)) > maxFileSize speechConfig /\
  fst (GoogleSTTService.transcribeAudio calm_env (zeros (maxFileSize speechConfig + 1))
         "webm" no_options ready)
    = inl (Error (wrapped errorMessages.FILE_TOO_LARGE)) /\
  fst (GoogleSTTService.transcribeAudio calm_env (zeros (maxFileSize speechConfig + 1))
         "webm" no_options ready)
    <> inl (Error errorMessages.FILE_TOO_LARGE) /\
  GoogleSTTService.checkRateLimit calm_env "default" (after_reads 1 busy)
    = (inl (Error errorMessages.RATE_LIMIT_EXCEEDED), after_reads 2 busy) /\
  fst (GoogleSTTService.transcribeAudio calm_env [Byte.x00] "webm" no_options busy)
    = inl (Error (wrapped errorMessages.RATE_LIMIT_EXCEEDED)) /\
  fst (GoogleSTTService.transcribeAudio calm_env [Byte.x00] "webm" no_options busy)
    <> inl (Error errorMessages.RATE_LIMIT_EXCEEDED).
Proof.
  assert (Hbig : blen (zeros (maxFileSize speechConfig + 1)) > maxFileSize speechConfig).
  { rewrite blen_zeros; cbn; lia. }
  assert (Hrun : GoogleSTTService.transcribeAudio calm_env
                   (zeros (maxFileSize speechConfig + 1)) "webm" no_options ready
                 = (inl (Error (wrapped errorMessages.FILE_TOO_LARGE)), after_reads 1 ready)).
  { rewrite (transcribeAudio_rejected_by_validator calm_env _ "webm" no_options ready
               (Error errorMessages.FILE_TOO_LARGE) eq_refl
               (validateAudioFile_oversize _ _ Hbig)).
    now rewrite (proj1 classify_local_errors). }
  split; [exact Hbig|]. rewrite Hrun. cbn [fst].
  split; [reflexivity|]. split; [vm_compute; discriminate|].
  split; [vm_compute; reflexivity|].
  split; vm_compute; [reflexivity|discriminate].
Qed.

(** C2, amended: for every buffer longer than [maxFileSize],
    [transcribeAudio] throws and calls the recognizer not at all (the
    only calls it can make are those of the lazy initialization); on an
    initialized service the error thrown is the validator's message
    wrapped by the [catch] block as the generic transcription failure.
    Likewise, when the validator accepts and the limiter rejects the
    caller, the limiter's message is thrown wrapped in the same way and
    no call is made. *)
Theorem local_rejections_are_wrapped_and_precede_the_remote_call
    (env : Env) (audioBuffer : Buffer) (format : string) (options : Options) (w : World) :
  let r := GoogleSTTService.transcribeAudio env audioBuffer format options w in
  (blen audioBuffer > maxFileSize speechConfig ->
     (exists e, fst r = inl e) /\
     (exists l, trace (snd r) = trace w ++ l /\ forallb is_credential_call l = true) /\
     (Service.initialized (service w) = true ->
        r = (inl (Error (wrapped errorMessages.FILE_TOO_LARGE)), after_reads 1 w))) /\
  (forall e,
     Service.initialized (service w) = true ->
     GoogleSTTService.validateAudioFile audioBuffer format = inr true ->
     GoogleSTTService.checkRateLimitAt (Date_now env (S (clock_reads w))) (caller_of options)
       (Service.requestCount (service w)) = inl e ->
     e = Error errorMessages.RATE_LIMIT_EXCEEDED /\
     r = (inl (Error (wrapped errorMessages.RATE_LIMIT_EXCEEDED)), after_reads 2 w)).
Proof.
  intros r. subst r. split.
  - intros Hbig. pose proof (validateAudioFile_oversize _ format Hbig) as Hval.
    destruct (transcribeAudio_invalid_input env _ _ options _ w Hval) as [Herr Hcalls].
    repeat split; [exact Herr | exact Hcalls |].
    intros Hinit.
    rewrite (transcribeAudio_rejected_by_validator _ _ _ _ _ _ Hinit Hval).
    now rewrite (proj1 classify_local_errors).
  - intros e Hinit Hval Hrate.
    pose proof (checkRateLimitAt_error _ _ _ _ Hrate) as ->.
    split; [reflexivity|].
    rewrite (transcribeAudio_rejected_by_limiter _ _ _ _ _ _ _ Hinit Hval Hrate).
    now rewrite (proj2 (proj2 (proj2 classify_local_errors))).
Qed.

Lemma local_rejections_on_concrete_inputs :
  GoogleSTTService.transcribeAudio calm_env (zeros (maxFileSize speechConfig + 1))
    "webm" no_options ready
  = (inl (Error (wrapped errorMessages.FILE_TOO_LARGE)), after_reads 1 ready) /\
  GoogleSTTService.transcribeAudio calm_env [Byte.x00] "webm" no_options busy
  = (inl (Error (wrapped errorMessages.RATE_LIMIT_EXCEEDED)), after_reads 2 busy).
Proof.
  split.
  - refine (proj2 (proj2 (proj1
      (local_rejections_are_wrapped_and_precede_the_remote_call calm_env
         (zeros (maxFileSize speechConfig + 1)) "webm" no_options ready) _)) eq_refl).
    rewrite blen_zeros; cbn; lia.
  - refine (proj2 (proj2
      (local_rejections_are_wrapped_and_precede_the_remote_call calm_env
         [Byte.x00] "webm" no_options busy)
      (Error errorMessages.RATE_LIMIT_EXCEEDED) eq_refl _ _)).
    + vm_compute. reflexivity.
    + vm_compute. reflexivity.
Defined.

(** A successful initialization of the service leaves it initialized,
    with a speech client. *)
Lemma service_initialize_success env w w1 :
  GoogleSTTService.initialize env w = (inr tt, w1) ->
  Service.initialized (service w1) = true /\
  exists speechClient, Service.speechClient (service w1) = Some speechClient.
Proof.
  unfold GoogleSTTService.initialize, WorkloadIdentityManager.getAuthenticatedClient,
    WorkloadIdentityManager.getProjectId, WorkloadIdentityManager.auth_getProjectId.
  intros H. js_unfold.
  destruct (WorkloadIdentityManager.initialize env w) as [[e|u] w0]; [discriminate H|].
  cbn in H.
  destruct (Manager.initialized (manager w0)) eqn:Hm; cbn in H; rewrite ?Hm in H;
    cbn in H; [|discriminate H].
  destruct (Manager.auth (manager w0)); cbn in H; [|discriminate H].
  destruct (answer_getProjectId env (length (trace w0))); cbn in H; [discriminate H|].
  injection H as <-. cbn. eauto.
Qed.

(** After a lazy initialization that succeeds, [transcribeAudio]
    continues as on an initialized service. *)
Lemma transcribeAudio_lazy_init env audioBuffer format options w w1 :
  Service.initialized (service w) = false ->
  GoogleSTTService.initialize env w = (inr tt, w1) ->
  GoogleSTTService.transcribeAudio env audioBuffer format options w
  = GoogleSTTService.transcribeAudio env audioBuffer format options w1.
Proof.
  intros Hno Hrun.
  destruct (service_initialize_success env w w1 Hrun) as [Hyes _].
  unfold GoogleSTTService.transcribeAudio, try_catch, bind, get_service.
  rewrite Hno, Hyes. cbn [negb]. rewrite Hrun. reflexivity.
Qed.

(** C6: on an initialized service whose validator and limiter accept
    the request, a response of the recognizer without results (the
    property absent, or an empty list) makes [transcribeAudio] return
    (it does not throw) the object with [success] true, the empty
    transcript, confidence 0 and empty [alternatives] and [wordDetails]
    lists. *)
Theorem empty_response_is_success
    (env : Env) (audioBuffer : Buffer) (format : string) (options : Options)
    (w : World) (speechClient : SpeechClient) (requestCount' : gmap string (list Z))
    (response : RecognizeResponse) :
  Service.initialized (service w) = true ->
  Service.speechClient (service w) = Some speechClient ->
  GoogleSTTService.validateAudioFile audioBuffer format = inr true ->
  GoogleSTTService.checkRateLimitAt (Date_now env (S (clock_reads w))) (caller_of options)
    (Service.requestCount (service w)) = inr requestCount' ->
  answer_recognize env (length (trace w)) = inr response ->
  api_results response = None \/ api_results response = Some [] ->
  exists result w',
    GoogleSTTService.transcribeAudio env audioBuffer format options w = (inr result, w') /\
    success result = true /\
    transcription result = "" /\
    confidence result = 0%float /\
    alternatives result = [] /\
    wordDetails result = [] /\
    processingTime result = Date_now env (2 + clock_reads w) - Date_now env (clock_reads w).
Proof.
  intros Hinit Hclient Hval Hrate Hanswer Hempty.
  rewrite (transcribeAudio_run env audioBuffer format options w speechClient true requestCount'
             Hinit Hclient Hval Hrate).
  rewrite Hanswer. unfold GoogleSTTService.process_response.
  destruct Hempty as [-> | ->]; eexists; eexists; repeat split.
Qed.

Lemma empty_response_is_success_on_ready_service :
  exists result w',
    GoogleSTTService.transcribeAudio calm_env [Byte.x1a; Byte.x45; Byte.xdf; Byte.xa3]
      "webm" no_options ready = (inr result, w') /\
    success result = true /\
    transcription result = "" /\
    confidence result = 0%float /\
    alternatives result = [] /\
    wordDetails result = [] /\
    processingTime result = 2000.
Proof.
  refine (empty_response_is_success calm_env [Byte.x1a; Byte.x45; Byte.xdf; Byte.xa3]
            "webm" no_options ready ready_client
            {[ "default" := [1000] ]} {| api_results := Some [] |} eq_refl eq_refl _ _ eq_refl
            (or_intror eq_refl)).
  - vm_compute. reflexivity.
  - vm_compute. reflexivity.
Defined.

(** ** Cutting a long buffer *)

Lemma blen_nonneg b : 0 <= blen b.
Proof. unfold blen. lia. Qed.

Lemma blen_slice b i size :
  0 <= i -> 0 <= size -> i + size <= blen b -> blen (slice b i (i + size)) = size.
Proof.
  intros Hi Hs Hle. unfold slice, slice_index.
  destruct (Z.ltb_spec i 0); [lia|].
  destruct (Z.ltb_spec (i + size) 0); [lia|].
  unfold blen in *. rewrite length_firstn, length_skipn. lia.
Qed.

Lemma split_loop_step fuel size b i :
  i < blen b ->
  GoogleSTTService.split_loop (S fuel) size b i
  = slice b i (i + size) :: GoogleSTTService.split_loop fuel size b (i + size).
Proof.
  intros Hi. cbn [GoogleSTTService.split_loop].
  destruct (Z.ltb_spec i (blen b)); [reflexivity|lia].
Qed.

Lemma split_loop_done fuel size b i :
  blen b <= i -> GoogleSTTService.split_loop fuel size b i = [].
Proof.
  intros Hi. destruct fuel; [reflexivity|]. cbn [GoogleSTTService.split_loop].
  destruct (Z.ltb_spec i (blen b)); [lia|reflexivity].
Qed.

(** The fuel of [split_chunks] is enough: with a positive chunk size the
    loop stops because it has reached the end of the buffer, and the
    chunks, put one after the other, are the buffer. *)
Lemma split_loop_concat fuel size b i :
  0 < size -> 0 <= i -> blen b - i <= Z.of_nat fuel ->
  concat (GoogleSTTService.split_loop fuel size b i) = skipn (Z.to_nat i) b.
Proof.
  intros Hsize. revert i. induction fuel as [|fuel IH]; intros i Hi Hfuel.
  - cbn. unfold blen in Hfuel. rewrite skipn_all2 by lia. reflexivity.
  - cbn [GoogleSTTService.split_loop].
    destruct (Z.ltb_spec i (blen b)) as [Hlt|Hge].
    + cbn [concat]. rewrite IH by lia.
      unfold slice, slice_index.
      destruct (Z.ltb_spec i 0); [lia|].
      destruct (Z.ltb_spec (i + size) 0); [lia|].
      rewrite (Z.min_l i) by lia.
      assert (Hsplit : Z.to_nat (Z.min (i + size) (blen b))
                       = (Z.to_nat i + Z.to_nat (Z.min (i + size) (blen b) - i))%nat) by lia.
      destruct (Z.le_ge_cases (i + size) (blen b)) as [Hin|Hout].
      * rewrite (Z.min_l (i + size)) by lia.
        replace (Z.to_nat (i + size)) with (Z.to_nat (i + size - i) + Z.to_nat i)%nat by lia.
        rewrite <- skipn_skipn. apply firstn_skipn.
      * rewrite (Z.min_r (i + size)) by lia.
        rewrite (skipn_all2 (n := Z.to_nat (i + size))) by (unfold blen in *; lia).
        rewrite app_nil_r. apply firstn_all2. rewrite length_skipn.
        unfold blen in *. lia.
    + cbn. unfold blen in Hge. rewrite skipn_all2 by lia. reflexivity.
Qed.

Lemma split_chunks_concat size b :
  0 < size -> concat (GoogleSTTService.split_chunks size b) = b.
Proof.
  intros Hsize. unfold GoogleSTTService.split_chunks.
  rewrite split_loop_concat; [reflexivity | exact Hsize | lia | unfold blen; lia].
Qed.

(** A buffer of four times the threshold is cut into four chunks. *)
Lemma split_chunks_four b :
  blen b = 4 * chunk_threshold ->
  GoogleSTTService.split_chunks chunk_threshold b
  = [chunk_at b 0; chunk_at b 1; chunk_at b 2; chunk_at b 3].
Proof.
  intros Hlen. unfold GoogleSTTService.split_chunks, chunk_at.
  assert (Hthr : chunk_threshold = 4194304) by reflexivity.
  destruct (length b) as [|[|[|[|fuel]]]] eqn:Hfuel;
    try (unfold blen in Hlen; rewrite Hfuel in Hlen; lia).
  rewrite !split_loop_step by lia.
  rewrite split_loop_done by lia.
  repeat f_equal; lia.
Qed.

Lemma blen_chunk_at b k :
  0 <= k -> (k + 1) * chunk_threshold <= blen b ->
  blen (chunk_at b k) = chunk_threshold.
Proof.
  intros Hk Hle. unfold chunk_at.
  assert (Hthr : chunk_threshold = 4194304) by reflexivity.
  apply blen_slice; lia.
Qed.

(** ** [transcribeLongAudio] *)

(** On an initialized service, a transcription that returns has called
    the recognizer exactly once and has left the service initialized. *)
Lemma transcribeAudio_success_trace env audioBuffer format options w speechClient result w' :
  Service.initialized (service w) = true ->
  Service.speechClient (service w) = Some speechClient ->
  GoogleSTTService.transcribeAudio env audioBuffer format options w = (inr result, w') ->
  trace w' = trace w ++ [Recognize speechClient
                           (GoogleSTTService.build_request audioBuffer format options)] /\
  Service.initialized (service w') = true /\
  Service.speechClient (service w') = Some speechClient.
Proof.
  intros Hinit Hclient Hrun.
  destruct (GoogleSTTService.validateAudioFile audioBuffer format) as [e|ok] eqn:Hval.
  { rewrite (transcribeAudio_rejected_by_validator _ _ _ _ _ _ Hinit Hval) in Hrun.
    discriminate Hrun. }
  destruct (GoogleSTTService.checkRateLimitAt (Date_now env (S (clock_reads w)))
              (caller_of options) (Service.requestCount (service w))) as [e|rc'] eqn:Hrate.
  { rewrite (transcribeAudio_rejected_by_limiter _ _ _ _ _ _ _ Hinit Hval Hrate) in Hrun.
    discriminate Hrun. }
  rewrite (transcribeAudio_run _ _ _ _ _ _ _ _ Hinit Hclient Hval Hrate) in Hrun.
  destruct (answer_recognize env (length (trace w))) as [e|response]; [discriminate Hrun|].
  destruct (GoogleSTTService.process_response _ _ _ response); [discriminate Hrun|].
  injection Hrun as _ <-. repeat split.
Qed.

(** A sleep changes the trace only. *)
Lemma sleep_run ms w :
  sleep ms w = (inr tt, mkWorld (manager w) (service w) (trace w ++ [SetTimeout ms])
                                (clock_reads w) (allocated w)).
Proof. reflexivity. Qed.

(** The chunked path on a buffer of four times the threshold: the four
    chunks are transcribed in order, each with its own options, with a
    sleep of one second between two chunks and none after the last. *)
Lemma transcribeLongAudio_four_chunks env audioBuffer format options w
    r0 r1 r2 r3 w0 w1 w2 w3 :
  blen audioBuffer = 4 * chunk_threshold ->
  GoogleSTTService.transcribeAudio env (chunk_at audioBuffer 0) format
    (GoogleSTTService.chunk_options options 0) w = (inr r0, w0) ->
  GoogleSTTService.transcribeAudio env (chunk_at audioBuffer 1) format
    (GoogleSTTService.chunk_options options 1) (snd (sleep 1000 w0)) = (inr r1, w1) ->
  GoogleSTTService.transcribeAudio env (chunk_at audioBuffer 2) format
    (GoogleSTTService.chunk_options options 2) (snd (sleep 1000 w1)) = (inr r2, w2) ->
  GoogleSTTService.transcribeAudio env (chunk_at audioBuffer 3) format
    (GoogleSTTService.chunk_options options 3) (snd (sleep 1000 w2)) = (inr r3, w3) ->
  GoogleSTTService.transcribeLongAudio env audioBuffer format options w
  = (inr (GoogleSTTService.merge_results [r0; r1; r2; r3]
            (0 + processingTime r0 + processingTime r1 + processingTime r2
             + processingTime r3)),
     w3).
Proof.
  intros Hlen H0 H1 H2 H3.
  unfold GoogleSTTService.transcribeLongAudio. cbv zeta.
  change (4 * 1024 * 1024) with chunk_threshold.
  destruct (Z.leb_spec (blen audioBuffer) chunk_threshold) as [Hsmall|_].
  { assert (Hthr : chunk_threshold = 4194304) by reflexivity. lia. }
  rewrite (split_chunks_four audioBuffer Hlen).
  cbn [GoogleSTTService.process_chunks length].
  change (Z.of_nat 0 <? Z.of_nat 4 - 1) with true.
  change (Z.of_nat 1 <? Z.of_nat 4 - 1) with true.
  change (Z.of_nat 2 <? Z.of_nat 4 - 1) with true.
  change (Z.of_nat 3 <? Z.of_nat 4 - 1) with false.
  rewrite sleep_run in H1, H2, H3. cbn [snd] in H1, H2, H3.
  unfold try_catch, bind. cbv beta iota.
  rewrite H0, sleep_run. cbv beta iota.
  rewrite H1, sleep_run. cbv beta iota.
  rewrite H2, sleep_run. cbv beta iota.
  rewrite H3. reflexivity.
Qed.

(** A chunk of exactly the threshold passes the validator when its
    format is supported: it is under the size limit, and its estimated
    duration, 131.072 s, is under the limit of 300 s. *)
Lemma validate_full_chunk b format :
  blen b = chunk_threshold ->
  array_includes (supportedFormats speechConfig) (JsString.toLowerCase format) = true ->
  GoogleSTTService.validateAudioFile b format = inr true.
Proof.
  intros Hlen Hfmt. unfold GoogleSTTService.validateAudioFile.
  rewrite Hlen, Hfmt. vm_compute. reflexivity.
Qed.

(** The identities under which the chunks are rate-limited. *)
Lemma chunk_identities options :
  opt_clientId (GoogleSTTService.chunk_options options 0)
    = Some (caller_of options +:+ "_chunk_0") /\
  opt_clientId (GoogleSTTService.chunk_options options 1)
    = Some (caller_of options +:+ "_chunk_1") /\
  opt_clientId (GoogleSTTService.chunk_options options 2)
    = Some (caller_of options +:+ "_chunk_2") /\
  opt_clientId (GoogleSTTService.chunk_options options 3)
    = Some (caller_of options +:+ "_chunk_3").
Proof. repeat split. Qed.

(** C5: a buffer of exactly four times the chunk threshold is cut into
    four consecutive chunks of the threshold size; when the four chunk
    transcriptions return, each started where the previous one and the
    sleep after it ended, [transcribeLongAudio] returns in the world
    the fourth one left (no sleep follows it) the merged object: the
    non-empty chunk transcripts joined by a space in chunk order, the
    sum of the chunk confidences divided by four, and the sum of the
    chunk processing times.  Chunk [k] is transcribed under the caller
    identity with the suffix [_chunk_k].  On an initialized service the
    calls made are the four recognizer calls in chunk order with a
    one-second timeout between two of them, three in all. *)
Theorem four_chunks_in_order_with_three_delays
    (env : Env) (audioBuffer : Buffer) (format : string) (options : Options)
    (w : World) (speechClient : SpeechClient)
    (r0 r1 r2 r3 : TranscriptionResult) (w0 w1 w2 w3 : World) :
  blen audioBuffer = 4 * chunk_threshold ->
  GoogleSTTService.transcribeAudio env (chunk_at audioBuffer 0) format
    (GoogleSTTService.chunk_options options 0) w = (inr r0, w0) ->
  GoogleSTTService.transcribeAudio env (chunk_at audioBuffer 1) format
    (GoogleSTTService.chunk_options options 1) (snd (sleep 1000 w0)) = (inr r1, w1) ->
  GoogleSTTService.transcribeAudio env (chunk_at audioBuffer 2) format
    (GoogleSTTService.chunk_options options 2) (snd (sleep 1000 w1)) = (inr r2, w2) ->
  GoogleSTTService.transcribeAudio env (chunk_at audioBuffer 3) format
    (GoogleSTTService.chunk_options options 3) (snd (sleep 1000 w2)) = (inr r3, w3) ->
  GoogleSTTService.split_chunks chunk_threshold audioBuffer
    = [chunk_at audioBuffer 0; chunk_at audioBuffer 1;
       chunk_at audioBuffer 2; chunk_at audioBuffer 3] /\
  Forall (fun chunk => blen chunk = chunk_threshold)
    (GoogleSTTService.split_chunks chunk_threshold audioBuffer) /\
  concat (GoogleSTTService.split_chunks chunk_threshold audioBuffer) = audioBuffer /\
  (opt_clientId (GoogleSTTService.chunk_options options 0)
     = Some (caller_of options +:+ "_chunk_0") /\
   opt_clientId (GoogleSTTService.chunk_options options 1)
     = Some (caller_of options +:+ "_chunk_1") /\
   opt_clientId (GoogleSTTService.chunk_options options 2)
     = Some (caller_of options +:+ "_chunk_2") /\
   opt_clientId (GoogleSTTService.chunk_options options 3)
     = Some (caller_of options +:+ "_chunk_3")) /\
  (exists merged,
     GoogleSTTService.transcribeLongAudio env audioBuffer format options w
       = (inr merged, w3) /\
     success merged = true /\
     transcription merged
       = JsString.join " "
           (filter (fun t => (0 < String.length t)%nat)
              [transcription r0; transcription r1; transcription r2; transcription r3]) /\
     confidence merged
       = PrimFloat.div
           (PrimFloat.add
              (PrimFloat.add
                 (PrimFloat.add (PrimFloat.add 0%float (confidence r0)) (confidence r1))
                 (confidence r2))
              (confidence r3))
           4%float /\
     processingTime merged
       = processingTime r0 + processingTime r1 + processingTime r2 + processingTime r3 /\
     chunks merged = Some 4%nat) /\
  (Service.initialized (service w) = true ->
   Service.speechClient (service w) = Some speechClient ->
   trace w3 = trace w ++
     [ Recognize speechClient
         (GoogleSTTService.build_request (chunk_at audioBuffer 0) format
            (GoogleSTTService.chunk_options options 0));
       SetTimeout 1000;
       Recognize speechClient
         (GoogleSTTService.build_request (chunk_at audioBuffer 1) format
            (GoogleSTTService.chunk_options options 1));
       SetTimeout 1000;
       Recognize speechClient
         (GoogleSTTService.build_request (chunk_at audioBuffer 2) format
            (GoogleSTTService.chunk_options options 2));
       SetTimeout 1000;
       Recognize speechClient
         (GoogleSTTService.build_request (chunk_at audioBuffer 3) format
            (GoogleSTTService.chunk_options options 3)) ]).
Proof.
  intros Hlen H0 H1 H2 H3.
  assert (Hthr : chunk_threshold = 4194304) by reflexivity.
  split; [exact (split_chunks_four audioBuffer Hlen)|].
  split.
  { rewrite (split_chunks_four audioBuffer Hlen).
    repeat constructor; apply blen_chunk_at; lia. }
  split; [apply split_chunks_concat; lia|].
  split; [exact (chunk_identities options)|].
  split.
  - eexists. split.
    + exact (transcribeLongAudio_four_chunks env audioBuffer format options w
               r0 r1 r2 r3 w0 w1 w2 w3 Hlen H0 H1 H2 H3).
    + repeat split.
  - intros Hinit Hclient.
    destruct (transcribeAudio_success_trace _ _ _ _ _ _ _ _ Hinit Hclient H0)
      as (Ht0 & Hi0 & Hc0).
    destruct (transcribeAudio_success_trace env _ _ _ (snd (sleep 1000 w0)) speechClient
                _ _ Hi0 Hc0 H1)
      as (Ht1 & Hi1 & Hc1).
    destruct (transcribeAudio_success_trace env _ _ _ (snd (sleep 1000 w1)) speechClient
                _ _ Hi1 Hc1 H2)
      as (Ht2 & Hi2 & Hc2).
    destruct (transcribeAudio_success_trace env _ _ _ (snd (sleep 1000 w2)) speechClient
                _ _ Hi2 Hc2 H3)
      as (Ht3 & _ & _).
    rewrite Ht3. cbn [sleep external snd trace]. rewrite Ht2.
    cbn [sleep external snd trace]. rewrite Ht1.
    cbn [sleep external snd trace]. rewrite Ht0.
    rewrite <- !app_assoc. reflexivity.
Qed.

(** The loop over the chunks returns one result per chunk. *)
Lemma process_chunks_length env format options count rest :
  forall i results total w results' total' w',
    GoogleSTTService.process_chunks env format options count i rest results total w
      = (inr (results', total'), w') ->
    length results' = (length results + length rest)%nat.
Proof.
  induction rest as [|chunk rest IH]; intros i results total w results' total' w' Hrun.
  - cbn in Hrun. injection Hrun as <- _ _. cbn. lia.
  - cbn [GoogleSTTService.process_chunks] in Hrun. unfold bind in Hrun.
    destruct (GoogleSTTService.transcribeAudio env chunk format _ w) as [[e|r] w1];
      [discriminate Hrun|].
    destruct ((if Z.of_nat i <? Z.of_nat count - 1 then sleep 1000 else ret tt) w1)
      as [[e|u] w2]; [discriminate Hrun|].
    apply IH in Hrun. rewrite Hrun, length_app. cbn. lia.
Qed.

(** C9: whenever the chunked path (a buffer longer than the threshold)
    returns, the object returned has empty [alternatives] and
    [wordDetails] lists and carries the number of chunks. *)
Theorem chunked_result_has_no_details
    (env : Env) (audioBuffer : Buffer) (format : string) (options : Options)
    (w w' : World) (result : TranscriptionResult) :
  blen audioBuffer > chunk_threshold ->
  GoogleSTTService.transcribeLongAudio env audioBuffer format options w = (inr result, w') ->
  alternatives result = [] /\
  wordDetails result = [] /\
  chunks result
    = Some (length (GoogleSTTService.split_chunks chunk_threshold audioBuffer)).
Proof.
  intros Hlong Hrun.
  unfold GoogleSTTService.transcribeLongAudio in Hrun. cbv zeta in Hrun.
  change (4 * 1024 * 1024) with chunk_threshold in Hrun.
  destruct (Z.leb_spec (blen audioBuffer) chunk_threshold) as [Hsmall|_]; [lia|].
  unfold try_catch, bind, ret, throw in Hrun.
  destruct (GoogleSTTService.process_chunks env format options _ 0 _ [] 0 w)
    as [[e|[results total]] w1] eqn:Hloop; [discriminate Hrun|].
  injection Hrun as <- <-.
  apply process_chunks_length in Hloop.
  cbn [alternatives wordDetails chunks GoogleSTTService.merge_results fst snd].
  repeat split. now rewrite Hloop.
Qed.

(** *** A run of the chunked path on sixteen mebibytes *)

Lemma blen_long_buffer : blen long_buffer = 4 * chunk_threshold.
Proof. unfold long_buffer. apply blen_zeros. vm_compute. discriminate. Qed.

Lemma validate_long_buffer_chunk k :
  0 <= k <= 3 ->
  GoogleSTTService.validateAudioFile (chunk_at long_buffer k) "webm" = inr true.
Proof.
  intros Hk. apply validate_full_chunk; [|reflexivity].
  assert (Hthr : chunk_threshold = 4194304) by reflexivity.
  apply blen_chunk_at; [lia|]. rewrite blen_long_buffer. lia.
Qed.

#[local] Opaque long_buffer chunk_at blen.

(** A caller without history is accepted. *)
Lemma checkRateLimitAt_fresh now clientId (requestCount : gmap string (list Z)) :
  requestCount !! clientId = None ->
  GoogleSTTService.checkRateLimitAt now clientId requestCount
  = inr (<[clientId := [now]]> requestCount).
Proof.
  intros Hnone. unfold GoogleSTTService.checkRateLimitAt. rewrite Hnone. reflexivity.
Qed.

(** One chunk of the run: the service is initialized, the validator and
    the limiter accept, and the recognizer answers. *)
Ltac chunk_run k :=
  erewrite (transcribeAudio_run talk_env (chunk_at long_buffer k) "webm" _ _ ready_client true);
  [ cbn -[GoogleSTTService.build_request GoogleSTTService.chunk_options]; reflexivity
  | reflexivity
  | reflexivity
  | apply validate_long_buffer_chunk; lia
  | apply checkRateLimitAt_fresh; cbn;
    rewrite ?lookup_insert_ne by discriminate; apply lookup_empty ].

Lemma talk_chunk_runs :
  exists r0 r1 r2 r3 w0 w1 w2 w3,
    GoogleSTTService.transcribeAudio talk_env (chunk_at long_buffer 0) "webm"
      (GoogleSTTService.chunk_options no_options 0) ready = (inr r0, w0) /\
    GoogleSTTService.transcribeAudio talk_env (chunk_at long_buffer 1) "webm"
      (GoogleSTTService.chunk_options no_options 1) (snd (sleep 1000 w0)) = (inr r1, w1) /\
    GoogleSTTService.transcribeAudio talk_env (chunk_at long_buffer 2) "webm"
      (GoogleSTTService.chunk_options no_options 2) (snd (sleep 1000 w1)) = (inr r2, w2) /\
    GoogleSTTService.transcribeAudio talk_env (chunk_at long_buffer 3) "webm"
      (GoogleSTTService.chunk_options no_options 3) (snd (sleep 1000 w2)) = (inr r3, w3) /\
    map transcription [r0; r1; r2; r3] = ["good"; ""; "morning"; "everyone"] /\
    map confidence [r0; r1; r2; r3] = [0.5%float; 0%float; 0.75%float; 0.25%float] /\
    map processingTime [r0; r1; r2; r3] = [2000; 2000; 2000; 2000].
Proof.
  do 8 eexists.
  split; [chunk_run 0|].
  split; [chunk_run 1|].
  split; [chunk_run 2|].
  split; [chunk_run 3|].
  repeat split.
Qed.

Lemma talk_long_run :
  exists merged w3,
    GoogleSTTService.transcribeLongAudio talk_env long_buffer "webm" no_options ready
    = (inr merged, w3).
Proof.
  destruct talk_chunk_runs as (r0 & r1 & r2 & r3 & w0 & w1 & w2 & w3 & H0 & H1 & H2 & H3 & _).
  eexists. exists w3.
  exact (transcribeLongAudio_four_chunks talk_env long_buffer "webm" no_options ready
           r0 r1 r2 r3 w0 w1 w2 w3 blen_long_buffer H0 H1 H2 H3).
Qed.

Lemma four_chunks_on_sixteen_mebibytes :
  exists merged w3,
    GoogleSTTService.transcribeLongAudio talk_env long_buffer "webm" no_options ready
      = (inr merged, w3) /\
    transcription merged = "good morning everyone" /\
    confidence merged = 0.375%float /\
    processingTime merged = 8000 /\
    chunks merged = Some 4%nat /\
    length (GoogleSTTService.split_chunks chunk_threshold long_buffer) = 4%nat /\
    map is_recognize (skipn (length (trace ready)) (trace w3))
      = [true; false; true; false; true; false; true] /\
    filter (fun c => is_recognize c = false) (skipn (length (trace ready)) (trace w3))
      = [SetTimeout 1000; SetTimeout 1000; SetTimeout 1000].
Proof.
  destruct talk_chunk_runs
    as (r0 & r1 & r2 & r3 & w0 & w1 & w2 & w3 & H0 & H1 & H2 & H3 & Ht & Hc & Hp).
  destruct (four_chunks_in_order_with_three_delays talk_env long_buffer "webm" no_options
              ready ready_client r0 r1 r2 r3 w0 w1 w2 w3 blen_long_buffer H0 H1 H2 H3)
    as (Hsplit & _ & _ & _ & (merged & Hrun & _ & Htr & Hcf & Hpt & Hch) & Htrace).
  exists merged, w3.
  injection Ht as Ht0 Ht1 Ht2 Ht3.
  injection Hc as Hc0 Hc1 Hc2 Hc3.
  injection Hp as Hp0 Hp1 Hp2 Hp3.
  rewrite Ht0, Ht1, Ht2, Ht3 in Htr.
  rewrite Hc0, Hc1, Hc2, Hc3 in Hcf.
  rewrite Hp0, Hp1, Hp2, Hp3 in Hpt.
  specialize (Htrace eq_refl eq_refl).
  split; [exact Hrun|].
  split; [exact Htr|].
  split; [exact Hcf|].
  split; [exact Hpt|].
  split; [exact Hch|].
  split; [now rewrite Hsplit|].
  rewrite Htrace, skipn_app, skipn_all, Nat.sub_diag. split; reflexivity.
Defined.

Lemma chunked_result_on_sixteen_mebibytes :
  exists result w',
    GoogleSTTService.transcribeLongAudio talk_env long_buffer "webm" no_options ready
      = (inr result, w') /\
    alternatives result = [] /\
    wordDetails result = [] /\
    chunks result = Some 4%nat.
Proof.
  destruct talk_long_run as (result & w' & Hrun).
  exists result, w'. split; [exact Hrun|].
  assert (Hlong : blen long_buffer > chunk_threshold).
  { rewrite blen_long_buffer. reflexivity. }
  destruct (chunked_result_has_no_details talk_env long_buffer "webm" no_options
              ready w' result Hlong Hrun) as (Ha & Hw & Hc).
  rewrite (split_chunks_four long_buffer blen_long_buffer) in Hc.
  repeat split; assumption.
Defined.

(** The single-request path keeps the alternatives and the word
    timings of the response. *)
Example single_request_keeps_details :
  GoogleSTTService.process_response [Byte.x00] (GoogleSTTService.build_config "webm" no_options)
    1200
    {| api_results := Some [ {| api_alternatives :=
         [ {| api_transcript := "good morning"; api_confidence := 0.5%float;
              api_words := Some [ {| api_word := "good";
                                     api_startTime := Some {| seconds := Some 0; nanos := None |};
                                     api_endTime := Some {| seconds := Some 1; nanos := Some 500000000 |};
                                     api_word_confidence := 0.5%float |} ] |};
           {| api_transcript := "good mourning"; api_confidence := 0.25%float;
              api_words := None |} ] |} ] |}
  = inr {| success := true; transcription := "good morning"; confidence := 0.5%float;
           processingTime := 1200;
           alternatives := [ {| alt_transcript := "good mourning";
                                alt_confidence := 0.25%float |} ];
           wordDetails := [ {| wd_word := "good"; wd_startTime := 0%float;
                               wd_endTime := 1.5%float; wd_confidence := 0.5%float |} ];
           debug := Some {| totalResults := 1; dbg_encoding := JsStr "WEBM_OPUS";
                            dbg_sampleRate := 16000; dbg_audioSize := 1 |};
           chunks := None |}.
Proof. vm_compute. reflexivity. Qed.

(** ** The middleware of the router *)

(** The middleware keeps one window only: after a request that passes,
    the history of the caller holds the entries of the last minute and
    the current instant. *)
Lemma rateLimit_is_minute_only now clientId (rateLimitMap rateLimitMap' : gmap string (list Z)) :
  SttRoutes.rateLimitAt now clientId rateLimitMap = (SttRoutes.Next, rateLimitMap') ->
  rateLimitMap' !! clientId
  = Some (filter (fun time => now - time < 60000) (default [] (rateLimitMap !! clientId))
          ++ [now]).
Proof.
  unfold SttRoutes.rateLimitAt.
  destruct (rateLimitMap !! clientId) as [history|] eqn:Hlook.
  - rewrite Hlook. cbn [default from_option id].
    destruct (_ >=? _); [discriminate|]. intros [= <-]. apply lookup_insert_eq.
  - rewrite lookup_insert_eq. cbn [default from_option id].
    destruct (_ >=? _); [discriminate|]. intros [= <-]. apply lookup_insert_eq.
Qed.

(** ** The older copy of the credential manager *)

(** From a manager that is not initialized, the older [initialize()]
    never returns: its probe re-enters it before the flag is set, so a
    run either throws or goes on for ever. *)
Lemma legacy_initialize_never_returns fuel env :
  forall w w',
    Manager.initialized (manager w) = false ->
    LegacyManager.initialize fuel env w <> Some (inr tt, w').
Proof.
  induction fuel as [|fuel IH]; intros w w' Hflag; [discriminate|].
  destruct w as [[au cl ini] s tr k al]. cbn in Hflag. subst ini.
  cbn [LegacyManager.initialize].
  unfold LegacyManager.testAuthentication_with, LegacyManager.getAccessToken_with,
    LegacyManager.ensure_initialized, WorkloadIdentityManager.auth_getProjectId,
    LegacyManager.ptry, LegacyManager.pbind, LegacyManager.run.
  js_unfold. cbn -[LegacyManager.initialize WorkloadIdentityManager.construct_auth].
  destruct (answer_getClient env (length tr)); [discriminate|].
  cbn -[LegacyManager.initialize WorkloadIdentityManager.construct_auth].
  destruct (answer_getProjectId env _); [discriminate|].
  cbn -[LegacyManager.initialize WorkloadIdentityManager.construct_auth].
  match goal with
  | |- context [LegacyManager.initialize fuel env ?w1] =>
      pose proof (IH w1) as Hnested;
      destruct (LegacyManager.initialize fuel env w1) as [[[e|[]] w2]|]
  end.
  - discriminate.
  - exfalso. exact (Hnested w2 eq_refl eq_refl).
  - discriminate.
Qed.

(** With every remote end answering, the older [initialize()] does not
    finish within a hundred nested calls, and the older
    [getAccessToken()], called before any [initialize()], starts an
    initialization of its own: with the probe down it has asked for a
    client and for the project id before it throws. *)
Example legacy_runs :
  LegacyManager.initialize 100 calm_env boot = None /\
  (exists w',
     LegacyManager.getAccessToken 5 probe_down_env boot
       = Some (inl (Error "アクセストークンの取得に失敗しました"), w') /\
     map is_credential_call (trace w') = [true; true]).
Proof.
  split; [vm_compute; reflexivity|].
  eexists. split; vm_compute; reflexivity.
Qed.

(** * Further properties of the code *)

#[local] Transparent blen chunk_at.

(** ** The validator *)

(** X1: the checks of the validator run in order and the first failure
    wins: the size error is thrown exactly for the buffers above
    [maxFileSize], whatever the format, and the format error exactly for
    the buffers within the limit whose lower-cased format is not in the
    supported list. *)
Theorem validateAudioFile_first_failure_wins (audioBuffer : Buffer) (format : string) :
  (GoogleSTTService.validateAudioFile audioBuffer format
     = inl (Error errorMessages.FILE_TOO_LARGE)
   <-> blen audioBuffer > maxFileSize speechConfig) /\
  (GoogleSTTService.validateAudioFile audioBuffer format
     = inl (Error errorMessages.UNSUPPORTED_FORMAT)
   <-> blen audioBuffer <= maxFileSize speechConfig /\
       array_includes (supportedFormats speechConfig) (JsString.toLowerCase format) = false).
Proof.
  unfold GoogleSTTService.validateAudioFile.
  destruct (Z.gtb_spec (blen audioBuffer) (maxFileSize speechConfig)) as [Hbig|Hsmall];
    [|destruct (array_includes _ _) eqn:Hfmt; cbn [negb];
      [destruct (PrimFloat.ltb _ _)|]].
  all: split; split; intros H;
    try match type of H with _ /\ _ => destruct H as [H H'] end.
  all: first [ lia | reflexivity | discriminate | split; [lia|reflexivity]
             | exfalso; vm_compute in H; discriminate H ].
Qed.

(** ** The rate limiter of the service *)

(** X2: a check that is rejected records nothing: it throws the
    rate-limit error and leaves the service (every history, the
    rejected caller's too) as it was; only the clock has been read. *)
Theorem rejected_check_records_nothing
    (env : Env) (clientId : string) (w w' : World) (e : JsError) :
  GoogleSTTService.checkRateLimit env clientId w = (inl e, w') ->
  e = Error errorMessages.RATE_LIMIT_EXCEEDED /\ w' = after_reads 1 w.
Proof.
  unfold GoogleSTTService.checkRateLimit. js_unfold. cbn.
  destruct (GoogleSTTService.checkRateLimitAt _ _ _) as [e0|rc'] eqn:Hcheck;
    [|discriminate].
  intros [= <- <-]. split; [exact (checkRateLimitAt_error _ _ _ _ Hcheck)|reflexivity].
Qed.

Lemma rejected_check_on_busy_service :
  exists e w',
    GoogleSTTService.checkRateLimit calm_env "default" busy = (inl e, w') /\
    e = Error errorMessages.RATE_LIMIT_EXCEEDED /\
    w' = after_reads 1 busy.
Proof.
  exists (Error errorMessages.RATE_LIMIT_EXCEEDED), (after_reads 1 busy).
  assert (Hrun : GoogleSTTService.checkRateLimit calm_env "default" busy
                 = (inl (Error errorMessages.RATE_LIMIT_EXCEEDED), after_reads 1 busy))
    by (vm_compute; reflexivity).
  split; [exact Hrun|].
  exact (rejected_check_records_nothing calm_env "default" busy _ _ Hrun).
Defined.

(** X3: an accepted check touches the history of its caller only, and
    no caller is ever removed: the other callers keep their histories,
    every key of the map stays, and the caller's history now ends with
    the current instant. *)
Theorem accepted_check_touches_one_caller
    (now : Z) (clientId : string) (requestCount requestCount' : gmap string (list Z)) :
  GoogleSTTService.checkRateLimitAt now clientId requestCount = inr requestCount' ->
  (forall other, other <> clientId -> requestCount' !! other = requestCount !! other) /\
  dom requestCount ⊆ dom requestCount' /\
  exists history, requestCount' !! clientId = Some history /\ last history = Some now.
Proof.
  intros Hacc. apply checkRateLimitAt_accept in Hacc as [-> _].
  split; [|split].
  - intros other Hne. now rewrite lookup_insert_ne.
  - apply dom_insert_subseteq.
  - eexists. split; [apply lookup_insert_eq|apply last_snoc].
Qed.

Lemma accepted_check_on_two_callers :
  (forall other, other <> "10.0.0.2" ->
     (<["10.0.0.2" := [5000]]> ({[ "10.0.0.1" := [1000] ]} : gmap string (list Z))) !! other
     = ({[ "10.0.0.1" := [1000] ]} : gmap string (list Z)) !! other) /\
  dom ({[ "10.0.0.1" := [1000] ]} : gmap string (list Z))
    ⊆ dom (<["10.0.0.2" := [5000]]> ({[ "10.0.0.1" := [1000] ]} : gmap string (list Z))) /\
  exists history,
    (<["10.0.0.2" := [5000]]> ({[ "10.0.0.1" := [1000] ]} : gmap string (list Z)))
      !! "10.0.0.2" = Some history /\
    last history = Some 5000.
Proof.
  apply (accepted_check_touches_one_caller 5000 "10.0.0.2" {[ "10.0.0.1" := [1000] ]}).
  apply checkRateLimitAt_fresh. vm_compute. reflexivity.
Defined.

(** X4: in a history that the limiter can hold, the decision depends on
    the last minute only: a check is rejected exactly when the caller
    has sixty or more requests in the minute before it. *)
Theorem limiter_decides_on_the_last_minute
    (requestCount : gmap string (list Z)) (now : Z) (clientId : string) :
  reachable_counts requestCount ->
  ((exists e, GoogleSTTService.checkRateLimitAt now clientId requestCount = inl e)
   <-> rateLimitPerMinute speechConfig <= minute_count now clientId requestCount).
Proof.
  intros Hreach. unfold minute_count. cbn [rateLimitPerMinute speechConfig]. split.
  - intros [e He].
    destruct (Z.le_gt_cases 60
                (Z.of_nat (length (filter (fun time => now - time < 60000)
                                          (default [] (requestCount !! clientId))))))
      as [Hfull|Hroom]; [exact Hfull|].
    destruct (hourly_ceiling_is_dead requestCount now clientId Hreach Hroom) as [rc' Hacc].
    rewrite Hacc in He. discriminate He.
  - intros Hfull. unfold GoogleSTTService.checkRateLimitAt.
    cbn [rateLimitPerMinute speechConfig].
    destruct (Z.geb_spec (Z.of_nat (length (filter (fun time => now - time < 60000)
                           (default [] (requestCount !! clientId))))) 60); [|lia].
    eexists. reflexivity.
Qed.

Lemma limiter_decision_on_new_service :
  (exists e, GoogleSTTService.checkRateLimitAt 1000 "10.0.0.1" ∅ = inl e)
  <-> rateLimitPerMinute speechConfig <= minute_count 1000 "10.0.0.1" ∅.
Proof.
  exact (limiter_decides_on_the_last_minute ∅ 1000 "10.0.0.1" reachable_new).
Defined.

Lemma filter_none {A} (P : A -> Prop) `{forall x, Decision (P x)} (l : list A) :
  (forall x, x ∈ l -> ~ P x) -> filter P l = [].
Proof.
  induction l as [|x l IH]; intros Hall; [reflexivity|].
  rewrite filter_cons. destruct (decide (P x)) as [Hp|_].
  - exfalso. apply (Hall x); [left|exact Hp].
  - apply IH. intros y Hy. apply Hall. now right.
Qed.

(** X5: the window slides: when every recorded request of the caller
    is a minute old or older, the check is accepted and the caller's
    history restarts with the current instant alone. *)
Theorem window_slides
    (requestCount : gmap string (list Z)) (now : Z) (clientId : string) :
  reachable_counts requestCount ->
  (forall time, time ∈ default [] (requestCount !! clientId) -> 60000 <= now - time) ->
  GoogleSTTService.checkRateLimitAt now clientId requestCount
  = inr (<[clientId := [now]]> requestCount).
Proof.
  intros Hreach Hold.
  assert (Hnone : filter (fun time => now - time < 60000)
                         (default [] (requestCount !! clientId)) = []).
  { apply filter_none. intros time Hin Hlt. specialize (Hold time Hin). lia. }
  assert (Hroom : Z.of_nat (length (filter (fun time => now - time < 60000)
                                   (default [] (requestCount !! clientId)))) < 60).
  { rewrite Hnone. cbn. lia. }
  destruct (hourly_ceiling_is_dead requestCount now clientId Hreach Hroom) as [rc' Hacc].
  rewrite Hacc. apply checkRateLimitAt_accept in Hacc as [-> _].
  now rewrite Hnone.
Qed.

(** A history with one request at instant 1000. *)
Lemma one_request_reachable :
  reachable_counts (<["10.0.0.1" := [1000]]> ∅).
Proof.
  apply (reachable_accept 1000 "10.0.0.1" ∅); [apply reachable_new|].
  apply checkRateLimitAt_fresh. apply lookup_empty.
Qed.

Lemma window_slides_after_a_minute :
  GoogleSTTService.checkRateLimitAt 61000 "10.0.0.1" (<["10.0.0.1" := [1000]]> ∅)
  = inr (<["10.0.0.1" := [61000]]> (<["10.0.0.1" := [1000]]> ∅)).
Proof.
  apply (window_slides (<["10.0.0.1" := [1000]]> ∅) 61000 "10.0.0.1" one_request_reachable).
  intros time. rewrite lookup_insert_eq. cbn. intros Hin.
  apply list_elem_of_singleton in Hin. subst time. lia.
Defined.

(** X6: what the limiter holds for a caller is never empty, has at most
    sixty entries, ends with the instant of the caller's last accepted
    request, and every entry lies less than a minute before that
    instant. *)
Theorem stored_history_is_one_minute
    (requestCount : gmap string (list Z)) (clientId : string) (history : list Z) :
  reachable_counts requestCount ->
  requestCount !! clientId = Some history ->
  exists lastAccepted,
    last history = Some lastAccepted /\
    Forall (fun time => lastAccepted - time < 60000) history /\
    Z.of_nat (length history) <= 60.
Proof.
  intros Hreach. revert clientId history.
  induction Hreach as [|now id rc rc' _ IH Hacc]; intros clientId history Hlook.
  - rewrite lookup_empty in Hlook. discriminate Hlook.
  - apply checkRateLimitAt_accept in Hacc as [-> Hroom].
    destruct (decide (id = clientId)) as [->|Hne].
    + rewrite lookup_insert_eq in Hlook. injection Hlook as <-.
      exists now. split; [apply last_snoc|]. split.
      * apply Forall_app. split.
        -- apply Forall_forall. intros time Hin.
           apply list_elem_of_filter in Hin as [Hlt _]. exact Hlt.
        -- repeat constructor. lia.
      * rewrite length_app. cbn [length]. lia.
    + rewrite lookup_insert_ne in Hlook by exact Hne. exact (IH clientId history Hlook).
Qed.

Lemma stored_history_after_one_request :
  exists lastAccepted,
    last [1000] = Some lastAccepted /\
    Forall (fun time => lastAccepted - time < 60000) [1000] /\
    Z.of_nat (length [1000]) <= 60.
Proof.
  apply (stored_history_is_one_minute (<["10.0.0.1" := [1000]]> ∅) "10.0.0.1" [1000]
           one_request_reachable).
  apply lookup_insert_eq.
Defined.

(** ** The statistics *)

Lemma foldl_length_bound (ls : list (list Z)) (bound start : nat) :
  Forall (fun requests => (length requests <= bound)%nat) ls ->
  (foldl (fun sum requests => (sum + length requests)%nat) start ls
   <= start + bound * length ls)%nat.
Proof.
  intros Hall. revert start. induction Hall as [|requests ls Hle _ IH]; intros start.
  - cbn. lia.
  - cbn [foldl length]. specialize (IH (start + length requests)%nat). lia.
Qed.

(** X7: [totalRequests] of [getStats()] counts what the limiter holds,
    that is, requests of the callers' last active minute: it never
    exceeds sixty times the number of callers, however many requests
    have been served. *)
Theorem stats_count_the_last_minute_only (uptime : float) (s : Service.t) :
  reachable_counts (Service.requestCount s) ->
  (stat_totalRequests (ServiceStatus.getStats uptime s)
   <= 60 * stat_activeClients (ServiceStatus.getStats uptime s))%nat.
Proof.
  intros Hreach. cbn [ServiceStatus.getStats stat_totalRequests stat_activeClients].
  rewrite <- length_map_to_list.
  rewrite <- (length_fmap snd (map_to_list (Service.requestCount s))).
  apply (foldl_length_bound _ 60 0).
  apply Forall_forall. intros requests Hin.
  apply list_elem_of_fmap in Hin as [[clientId requests'] [-> Hin]].
  apply elem_of_map_to_list in Hin. cbn [snd].
  pose proof (reachable_counts_bounded _ Hreach clientId requests' Hin) as Hb.
  cbn [rateLimitPerMinute speechConfig] in Hb. lia.
Qed.

Lemma stats_after_one_request :
  (stat_totalRequests
     (ServiceStatus.getStats 2%float (Service.mk None false (<["10.0.0.1" := [1000%Z]]> ∅)))
   <= 60 * stat_activeClients
             (ServiceStatus.getStats 2%float
                (Service.mk None false (<["10.0.0.1" := [1000%Z]]> ∅))))%nat.
Proof.
  exact (stats_count_the_last_minute_only 2%float
           (Service.mk None false (<["10.0.0.1" := [1000%Z]]> ∅)) one_request_reachable).
Defined.

(** ** The errors of the transcription methods *)

Lemma classify_error_classified (e : JsError) :
  classified (GoogleSTTService.classify_error e).
Proof.
  unfold GoogleSTTService.classify_error, classified.
  repeat match goal with |- context [if ?b then _ else _] => destruct b end;
    cbn; repeat split; eauto 6.
Qed.

(** What [transcribeAudio] throws is thrown by its [catch] block. *)
Lemma transcribeAudio_error_is_rethrown env audioBuffer format options w w' e :
  GoogleSTTService.transcribeAudio env audioBuffer format options w = (inl e, w') ->
  exists cause, e = GoogleSTTService.classify_error cause.
Proof.
  unfold GoogleSTTService.transcribeAudio, try_catch, throw.
  destruct (bind get_service _ w) as [[e0|r] w1]; [|discriminate].
  intros [= <- _]. now exists e0.
Qed.



(** The two steps of the loop over the chunks. *)
Lemma process_chunks_fail env format options count i chunk rest results total w e w1 :
  GoogleSTTService.transcribeAudio env chunk format
    (GoogleSTTService.chunk_options options i) w = (inl e, w1) ->
  GoogleSTTService.process_chunks env format options count i (chunk :: rest) results total w
  = (inl e, w1).
Proof.
  intros Hrun. cbn [GoogleSTTService.process_chunks]. unfold bind at 1.
  now rewrite Hrun.
Qed.

Lemma process_chunks_next env format options count i chunk rest results total w r w1 :
  GoogleSTTService.transcribeAudio env chunk format
    (GoogleSTTService.chunk_options options i) w = (inr r, w1) ->
  GoogleSTTService.process_chunks env format options count i (chunk :: rest) results total w
  = GoogleSTTService.process_chunks env format options count (S i) rest
      (results ++ [r]) (total + processingTime r)
      (if Z.of_nat i <? Z.of_nat count - 1 then snd (sleep 1000 w1) else w1).
Proof.
  intros Hrun. cbn [GoogleSTTService.process_chunks]. unfold bind at 1.
  rewrite Hrun. unfold bind at 1.
  destruct (Z.of_nat i <? Z.of_nat count - 1); reflexivity.
Qed.

(** A failure of the loop is the failure of one chunk. *)
Lemma process_chunks_error env format options count rest :
  forall i results total w e w',
    GoogleSTTService.process_chunks env format options count i rest results total w
      = (inl e, w') ->
    exists k chunk wk,
      rest !! k = Some chunk /\
      GoogleSTTService.transcribeAudio env chunk format
        (GoogleSTTService.chunk_options options (i + k)) wk = (inl e, w').
Proof.
  induction rest as [|chunk rest IH]; intros i results total w e w' Hrun.
  - discriminate Hrun.
  - destruct (GoogleSTTService.transcribeAudio env chunk format
                (GoogleSTTService.chunk_options options i) w) as [[e1|r] w1] eqn:Hchunk.
    + rewrite (process_chunks_fail _ _ _ _ _ _ _ _ _ _ _ _ Hchunk) in Hrun.
      injection Hrun as <- <-.
      exists 0%nat, chunk, w. rewrite Nat.add_0_r. split; [reflexivity|exact Hchunk].
    + rewrite (process_chunks_next _ _ _ _ _ _ _ _ _ _ _ _ Hchunk) in Hrun.
      apply IH in Hrun as (k & c & wk & Hk & Hfail).
      exists (S k), c, wk. split; [exact Hk|].
      now replace (i + S k)%nat with (S i + k)%nat by lia.
Qed.

(** X9: when [transcribeLongAudio] throws on the chunked path, the
    error and the world it leaves are those of the transcription of one
    chunk that threw: the error is passed on as it is (it is not
    wrapped a second time), nothing runs after the failing chunk, and
    the results of the chunks before it are dropped. *)
Theorem long_audio_aborts_with_the_error_of_a_chunk
    (env : Env) (audioBuffer : Buffer) (format : string) (options : Options)
    (w w' : World) (e : JsError) :
  blen audioBuffer > chunk_threshold ->
  GoogleSTTService.transcribeLongAudio env audioBuffer format options w = (inl e, w') ->
  classified e /\
  exists k chunk wk,
    GoogleSTTService.split_chunks chunk_threshold audioBuffer !! k = Some chunk /\
    GoogleSTTService.transcribeAudio env chunk format
      (GoogleSTTService.chunk_options options k) wk = (inl e, w').
Proof.
  intros Hlong Hrun.
  unfold GoogleSTTService.transcribeLongAudio in Hrun. cbv zeta in Hrun.
  change (4 * 1024 * 1024) with chunk_threshold in Hrun.
  destruct (Z.leb_spec (blen audioBuffer) chunk_threshold) as [Hsmall|_]; [lia|].
  unfold try_catch, bind, ret, throw in Hrun.
  destruct (GoogleSTTService.process_chunks env format options _ 0 _ [] 0 w)
    as [[e1|acc] w1] eqn:Hloop; [|discriminate Hrun].
  injection Hrun as <- <-.
  apply process_chunks_error in Hloop as (k & chunk & wk & Hk & Hfail).
  split.
  { destruct (transcribeAudio_error_is_rethrown _ _ _ _ _ _ _ Hfail) as [cause ->].
    apply classify_error_classified. }
  exists k, chunk, wk. split; [exact Hk|exact Hfail].
Qed.

(** The status codes of the recognizer are tested before the message. *)
Lemma classify_error_by_code (e : JsError) :
  (err_code e = Some 3 ->
   GoogleSTTService.classify_error e = Error errorMessages.UNSUPPORTED_FORMAT) /\
  (err_code e = Some 8 ->
   GoogleSTTService.classify_error e = Error errorMessages.RATE_LIMIT_EXCEEDED) /\
  (err_code e = Some 16 ->
   GoogleSTTService.classify_error e = Error errorMessages.AUTHENTICATION_FAILED).
Proof.
  unfold GoogleSTTService.classify_error. repeat split; intros ->; reflexivity.
Qed.

(** X10: on an initialized service whose validator and limiter accept,
    a recognizer error with status code 3, 8 or 16 is thrown as the
    unsupported-format, rate-limit or authentication error, whatever
    its message says; the failed request has been recorded by the
    limiter all the same and counts against the caller's minute. *)
Theorem remote_failure_is_classified_and_counted
    (env : Env) (audioBuffer : Buffer) (format : string) (options : Options)
    (w : World) (speechClient : SpeechClient) (requestCount' : gmap string (list Z))
    (e : JsError) :
  Service.initialized (service w) = true ->
  Service.speechClient (service w) = Some speechClient ->
  GoogleSTTService.validateAudioFile audioBuffer format = inr true ->
  GoogleSTTService.checkRateLimitAt (Date_now env (S (clock_reads w))) (caller_of options)
    (Service.requestCount (service w)) = inr requestCount' ->
  answer_recognize env (length (trace w)) = inl e ->
  exists w',
    GoogleSTTService.transcribeAudio env audioBuffer format options w
      = (inl (GoogleSTTService.classify_error e), w') /\
    (err_code e = Some 3 ->
     GoogleSTTService.classify_error e = Error errorMessages.UNSUPPORTED_FORMAT) /\
    (err_code e = Some 8 ->
     GoogleSTTService.classify_error e = Error errorMessages.RATE_LIMIT_EXCEEDED) /\
    (err_code e = Some 16 ->
     GoogleSTTService.classify_error e = Error errorMessages.AUTHENTICATION_FAILED) /\
    Service.requestCount (service w') = requestCount' /\
    (exists history,
       Service.requestCount (service w') !! caller_of options = Some history /\
       last history = Some (Date_now env (S (clock_reads w)))).
Proof.
  intros Hinit Hclient Hval Hrate Hanswer.
  rewrite (transcribeAudio_run env audioBuffer format options w speechClient true
             requestCount' Hinit Hclient Hval Hrate).
  rewrite Hanswer. eexists. split; [reflexivity|].
  destruct (classify_error_by_code e) as (H3 & H8 & H16).
  repeat (split; [assumption|]).
  split; [reflexivity|].
  cbn [service Service.requestCount].
  apply checkRateLimitAt_accept in Hrate as [-> _].
  eexists. split; [apply lookup_insert_eq|apply last_snoc].
Qed.

Lemma remote_quota_failure_on_ready_service :
  exists w',
    GoogleSTTService.transcribeAudio quota_env [Byte.x1a; Byte.x45] "webm" no_options ready
      = (inl (Error errorMessages.RATE_LIMIT_EXCEEDED), w') /\
    Service.requestCount (service w') !! "default" = Some [1000].
Proof.
  destruct (remote_failure_is_classified_and_counted quota_env [Byte.x1a; Byte.x45] "webm"
              no_options ready ready_client (<["default" := [1000]]> ∅)
              (mkJsError "Error" (Some 8) "8 RESOURCE_EXHAUSTED: Quota exceeded")
              eq_refl eq_refl)
    as (w' & Hrun & _ & H8 & _ & Hcount & _).
  - vm_compute. reflexivity.
  - apply checkRateLimitAt_fresh. apply lookup_empty.
  - reflexivity.
  - exists w'. rewrite (H8 eq_refl) in Hrun. split; [exact Hrun|].
    rewrite Hcount. apply lookup_insert_eq.
Defined.

(** ** The response of the recognizer *)

(** X11: of a response with results, [transcribeAudio] reads the first
    result only: the transcript and the confidence are those of its
    first alternative, [alternatives] are its second and third
    alternatives, at most two, and the results after the first one
    change nothing but [debug.totalResults]. *)
Theorem only_the_first_result_is_read
    (audioBuffer : Buffer) (config : RecognitionConfig) (processingTime0 : Z)
    (best : SpeechRecognitionAlternative) (more : list SpeechRecognitionAlternative)
    (others : list SpeechRecognitionResult) :
  exists result,
    GoogleSTTService.process_response audioBuffer config processingTime0
      {| api_results := Some ({| api_alternatives := best :: more |} :: others) |}
      = inr result /\
    transcription result = api_transcript best /\
    confidence result = JsNumber.or_else (api_confidence best) 0%float /\
    map alt_transcript (alternatives result) = map api_transcript (firstn 2 more) /\
    (length (alternatives result) <= 2)%nat /\
    (forall others',
       exists result',
         GoogleSTTService.process_response audioBuffer config processingTime0
           {| api_results := Some ({| api_alternatives := best :: more |} :: others') |}
           = inr result' /\
         transcription result' = transcription result /\
         confidence result' = confidence result /\
         alternatives result' = alternatives result /\
         wordDetails result' = wordDetails result).
Proof.
  eexists. split; [reflexivity|].
  cbn [transcription confidence alternatives wordDetails api_alternatives skipn].
  split.
  { unfold JsString.or_else. destruct (String.eqb_spec (api_transcript best) "") as [->|_];
      reflexivity. }
  split; [reflexivity|].
  split; [now rewrite map_map|].
  split; [rewrite length_map, length_firstn; lia|].
  intros others'. eexists. split; [reflexivity|]. repeat split.
Qed.

(** ** The two paths of [transcribeLongAudio] *)

(** X12: for a buffer at or below the chunk threshold,
    [transcribeLongAudio] is [transcribeAudio]: the same result or
    error in the same world, under the caller's own identity (no chunk
    suffix) and without any sleep. *)
Theorem short_audio_takes_the_single_path
    (env : Env) (audioBuffer : Buffer) (format : string) (options : Options) (w : World) :
  blen audioBuffer <= chunk_threshold ->
  GoogleSTTService.transcribeLongAudio env audioBuffer format options w
  = GoogleSTTService.transcribeAudio env audioBuffer format options w.
Proof.
  intros Hshort. unfold GoogleSTTService.transcribeLongAudio. cbv zeta.
  change (4 * 1024 * 1024) with chunk_threshold.
  destruct (Z.leb_spec (blen audioBuffer) chunk_threshold) as [_|Hlong]; [|lia].
  unfold try_catch, throw.
  destruct (GoogleSTTService.transcribeAudio env audioBuffer format options w)
    as [[e|r] w1]; reflexivity.
Qed.

Lemma short_audio_on_ready_service :
  GoogleSTTService.transcribeLongAudio calm_env [Byte.x1a; Byte.x45] "webm" no_options ready
  = GoogleSTTService.transcribeAudio calm_env [Byte.x1a; Byte.x45] "webm" no_options ready.
Proof.
  apply (short_audio_takes_the_single_path calm_env [Byte.x1a; Byte.x45] "webm"
           no_options ready).
  vm_compute. discriminate.
Defined.

(** The chunk at each index of the loop that cuts the buffer. *)
Lemma split_loop_lookup fuel size b :
  0 < size ->
  forall i k,
    0 <= i -> blen b - i <= Z.of_nat fuel ->
    GoogleSTTService.split_loop fuel size b i !! k
    = if i + Z.of_nat k * size <? blen b
      then Some (slice b (i + Z.of_nat k * size) (i + Z.of_nat k * size + size))
      else None.
Proof.
  intros Hsize. induction fuel as [|fuel IH]; intros i k Hi Hfuel.
  - cbn. destruct (Z.ltb_spec (i + Z.of_nat k * size) (blen b)); [nia|reflexivity].
  - cbn [GoogleSTTService.split_loop].
    destruct (Z.ltb_spec i (blen b)) as [Hlt|Hge].
    + destruct k as [|k].
      * cbn [lookup list_lookup]. rewrite Z.mul_0_l, Z.add_0_r.
        destruct (Z.ltb_spec i (blen b)); [reflexivity|lia].
      * cbn [lookup list_lookup]. change (list_lookup k ?l) with (l !! k).
        rewrite IH by lia.
        replace (i + size + Z.of_nat k * size) with (i + Z.of_nat (S k) * size) by lia.
        reflexivity.
    + rewrite lookup_nil.
      destruct (Z.ltb_spec (i + Z.of_nat k * size) (blen b)); [nia|reflexivity].
Qed.

(** X13: the loop that cuts a long buffer loses and repeats nothing:
    with a positive chunk size, the chunks put one after the other are
    the buffer, and chunk [k] exists exactly when [k * size] is below
    the length and is then the slice from [k * size] to
    [k * size + size] (cut at the end of the buffer). *)
Theorem chunks_partition_the_buffer (size : Z) (audioBuffer : Buffer) :
  0 < size ->
  concat (GoogleSTTService.split_chunks size audioBuffer) = audioBuffer /\
  forall k : nat,
    GoogleSTTService.split_chunks size audioBuffer !! k
    = if Z.of_nat k * size <? blen audioBuffer
      then Some (slice audioBuffer (Z.of_nat k * size) (Z.of_nat k * size + size))
      else None.
Proof.
  intros Hsize. split.
  - unfold GoogleSTTService.split_chunks.
    rewrite split_loop_concat; [reflexivity | exact Hsize | lia | unfold blen; lia].
  - intros k. unfold GoogleSTTService.split_chunks.
    rewrite (split_loop_lookup _ size audioBuffer Hsize 0 k) by (unfold blen; lia).
    reflexivity.
Qed.

Lemma chunks_of_five_bytes :
  concat (GoogleSTTService.split_chunks 2 [Byte.x01; Byte.x02; Byte.x03; Byte.x04; Byte.x05])
    = [Byte.x01; Byte.x02; Byte.x03; Byte.x04; Byte.x05] /\
  GoogleSTTService.split_chunks 2 [Byte.x01; Byte.x02; Byte.x03; Byte.x04; Byte.x05]
    = [[Byte.x01; Byte.x02]; [Byte.x03; Byte.x04]; [Byte.x05]].
Proof.
  split.
  - exact (proj1 (chunks_partition_the_buffer 2
                    [Byte.x01; Byte.x02; Byte.x03; Byte.x04; Byte.x05] eq_refl)).
  - reflexivity.
Defined.

(** ** Initialization *)

(** X14: [initialize()] of the credential manager is idempotent: on a
    manager whose flag is set it returns at once and changes nothing,
    so after an [initialize()] that returned, a second one makes no
    call, constructs nothing and leaves the same client in place. *)
Theorem manager_initialize_is_idempotent (env : Env) (w w1 : World) :
  WorkloadIdentityManager.initialize env w = (inr tt, w1) ->
  Manager.initialized (manager w1) = true /\
  WorkloadIdentityManager.initialize env w1 = (inr tt, w1).
Proof.
  intros Hrun.
  assert (Hflag : Manager.initialized (manager w1) = true).
  { destruct (Manager.initialized (manager w)) eqn:Hw.
    - unfold WorkloadIdentityManager.initialize in Hrun. js_unfold.
      rewrite Hw in Hrun. injection Hrun as <-. exact Hw.
    - rewrite (manager_initialize_run env w Hw) in Hrun.
      destruct (answer_getClient env _); [discriminate Hrun|].
      destruct (answer_getProjectId env _); [discriminate Hrun|].
      injection Hrun as _ <-. reflexivity. }
  split; [exact Hflag|].
  unfold WorkloadIdentityManager.initialize. js_unfold. now rewrite Hflag.
Qed.

Lemma manager_initialize_twice_at_boot :
  Manager.initialized
    (manager (snd (WorkloadIdentityManager.initialize calm_env boot))) = true /\
  WorkloadIdentityManager.initialize calm_env
    (snd (WorkloadIdentityManager.initialize calm_env boot))
  = (inr tt, snd (WorkloadIdentityManager.initialize calm_env boot)).
Proof.
  exact (manager_initialize_is_idempotent calm_env boot
           (snd (WorkloadIdentityManager.initialize calm_env boot)) eq_refl).
Defined.


(** X15: when the service's [initialize()] throws, it throws its own
    initialization error whatever the cause was, it has called the
    credential endpoints only, and the fields of the service are as
    before (no speech client, flag unset), so that the next
    transcription tries again. *)
Theorem service_initialize_failure_changes_nothing
    (env : Env) (w w1 : World) (e : JsError) :
  GoogleSTTService.initialize env w = (inl e, w1) ->
  e = Error "STTサービスの初期化に失敗しました" /\
  service w1 = service w /\
  exists l, trace w1 = trace w ++ l /\ forallb is_credential_call l = true.
Proof.
  intros Hrun.
  destruct (service_initialize_calls env w) as (l & Htrace & Hcred).
  rewrite Hrun in Htrace. cbn [snd] in Htrace.
  assert (Hmgr : service (snd (WorkloadIdentityManager.initialize env w)) = service w).
  { destruct (Manager.initialized (manager w)) eqn:Hw.
    - unfold WorkloadIdentityManager.initialize. js_unfold. now rewrite Hw.
    - rewrite (manager_initialize_run env w Hw).
      destruct (answer_getClient env _); [reflexivity|].
      destruct (answer_getProjectId env _); reflexivity. }
  split; [|split; [|exists l; split; assumption]].
  - unfold GoogleSTTService.initialize, try_catch, throw in Hrun.
    destruct (bind (WorkloadIdentityManager.initialize env) _ w) as [[e0|u] w0];
      [|discriminate Hrun].
    now injection Hrun as <- _.
  - revert Hrun.
    unfold GoogleSTTService.initialize, WorkloadIdentityManager.getAuthenticatedClient,
      WorkloadIdentityManager.getProjectId, WorkloadIdentityManager.auth_getProjectId.
    js_unfold.
    destruct (WorkloadIdentityManager.initialize env w) as [[e0|u] w0]; cbn [snd] in Hmgr.
    + intros [= _ <-]. exact Hmgr.
    + cbn.
      destruct (Manager.initialized (manager w0)) eqn:Hm; cbn; rewrite ?Hm; cbn;
        [|intros [= _ <-]; exact Hmgr].
      destruct (Manager.auth (manager w0)); cbn; [|intros [= _ <-]; exact Hmgr].
      destruct (answer_getProjectId env (length (trace w0))); cbn;
        [intros [= _ <-]; exact Hmgr|discriminate].
Qed.

Lemma service_initialize_failure_with_probe_down :
  exists w1,
    GoogleSTTService.initialize probe_down_env boot
      = (inl (Error "STTサービスの初期化に失敗しました"), w1) /\
    service w1 = service boot /\
    exists l, trace w1 = trace boot ++ l /\ forallb is_credential_call l = true.
Proof.
  exists (snd (GoogleSTTService.initialize probe_down_env boot)).
  split; [reflexivity|].
  exact (proj2 (service_initialize_failure_changes_nothing probe_down_env boot _ _ eq_refl)).
Defined.



(** X17: once the service is initialized, [transcribeAudio] does not
    consult the credential manager: with any other manager state (for
    instance the one a failed refresh leaves) it gives the same result
    or error and makes the same changes, and the manager is left as it
    was. *)
Theorem transcribeAudio_ignores_the_manager
    (env : Env) (audioBuffer : Buffer) (format : string) (options : Options)
    (w : World) (m : Manager.t) :
  Service.initialized (service w) = true ->
  GoogleSTTService.transcribeAudio env audioBuffer format options (with_manager m w)
  = (fst (GoogleSTTService.transcribeAudio env audioBuffer format options w),
     with_manager m (snd (GoogleSTTService.transcribeAudio env audioBuffer format options w))).
Proof.
  intros Hinit.
  unfold GoogleSTTService.transcribeAudio, GoogleSTTService.checkRateLimit, with_manager.
  js_unfold. cbn. rewrite Hinit. cbn.
  destruct (GoogleSTTService.validateAudioFile audioBuffer format); [reflexivity|].
  cbn.
  destruct (GoogleSTTService.checkRateLimitAt _ _ _); [reflexivity|].
  cbn.
  destruct (Service.speechClient (service w)); [|reflexivity].
  cbn.
  destruct (answer_recognize env (length (trace w))); [reflexivity|].
  cbn.
  destruct (GoogleSTTService.process_response _ _ _ _); reflexivity.
Qed.

Lemma transcribeAudio_after_failed_refresh :
  GoogleSTTService.transcribeAudio calm_env [Byte.x1a; Byte.x45] "webm" no_options
    (snd (WorkloadIdentityManager.refreshAuthentication calm_env ready))
  = (inr (GoogleSTTService.empty_result 2000),
     with_manager (manager (snd (WorkloadIdentityManager.refreshAuthentication calm_env ready)))
       (snd (GoogleSTTService.transcribeAudio calm_env [Byte.x1a; Byte.x45] "webm"
               no_options ready))).
Proof.
  exact (transcribeAudio_ignores_the_manager calm_env [Byte.x1a; Byte.x45] "webm" no_options
           ready (manager (snd (WorkloadIdentityManager.refreshAuthentication calm_env ready)))
           eq_refl).
Defined.

(** ** The check of the environment *)

(** X18: [validateEnvironmentVariables()] returns exactly when each of
    the four required variables is set to a non-empty string; otherwise
    it throws, and the message lists the missing variables in the order
    of the required list, separated by a comma and a space. *)
Theorem validateEnvironmentVariables_lists_what_is_missing (env : Env) :
  (EnvironmentCheck.validateEnvironmentVariables env = inr tt
   <-> forall varName, In varName EnvironmentCheck.requiredVars ->
         env_truthy (process_env env varName) = true) /\
  (forall e,
     EnvironmentCheck.validateEnvironmentVariables env = inl e ->
     e = Error ("Missing required environment variables: "
                +:+ JsString.join ", "
                      (List.filter (fun varName => negb (env_truthy (process_env env varName)))
                                   EnvironmentCheck.requiredVars)) /\
     List.filter (fun varName => negb (env_truthy (process_env env varName)))
                 EnvironmentCheck.requiredVars <> []).
Proof.
  unfold EnvironmentCheck.validateEnvironmentVariables.
  set (missing := List.filter (fun varName => negb (env_truthy (process_env env varName)))
                              EnvironmentCheck.requiredVars).
  assert (Hnil : missing = [] <->
                 forall varName, In varName EnvironmentCheck.requiredVars ->
                   env_truthy (process_env env varName) = true).
  { split.
    - intros Hm varName Hin.
      destruct (env_truthy (process_env env varName)) eqn:Ht; [reflexivity|].
      assert (Hmem : In varName missing).
      { apply List.filter_In. split; [exact Hin|now rewrite Ht]. }
      rewrite Hm in Hmem. destruct Hmem.
    - intros Hall. subst missing.
      destruct (List.filter _ _) as [|v rest] eqn:Hf; [reflexivity|].
      assert (Hmem : In v (v :: rest)) by now left.
      rewrite <- Hf in Hmem. apply List.filter_In in Hmem as [Hin Hneg].
      rewrite (Hall v Hin) in Hneg. discriminate Hneg. }
  destruct missing as [|v rest] eqn:Hm; cbn [length Nat.ltb Nat.leb].
  - split; [split; [intros _; now apply Hnil|reflexivity]|]. intros e [=].
  - split.
    + split; [intros [=]|]. intros Hall. apply Hnil in Hall. discriminate Hall.
    + intros e [= <-]. split; [reflexivity|discriminate].
Qed.

(** ** The middleware of the router, continued *)

(** X19: the middleware of the router answers 429 with a retry hint of
    sixty seconds exactly when the caller already has sixty requests in
    the minute before, and a rejection leaves the map as it was;
    otherwise it passes the request on and the caller's history becomes
    the entries of the last minute followed by the current instant. *)
Theorem router_limiter_verdict
    (now : Z) (clientId : string) (rateLimitMap : gmap string (list Z)) :
  SttRoutes.rateLimitAt now clientId rateLimitMap
  = if 60 <=? minute_count now clientId rateLimitMap
    then (SttRoutes.Reject 429 60, rateLimitMap)
    else (SttRoutes.Next,
          <[clientId := filter (fun time => now - time < 60000)
                               (default [] (rateLimitMap !! clientId)) ++ [now]]>
            rateLimitMap).
Proof.
  unfold SttRoutes.rateLimitAt, minute_count. cbn [rateLimitPerMinute speechConfig].
  destruct (rateLimitMap !! clientId) as [history|] eqn:Hlook.
  - rewrite Hlook. cbn [default from_option id].
    destruct (Z.geb_spec (Z.of_nat (length (filter (fun time => now - time < 60000) history))) 60);
      destruct (Z.leb_spec 60 (Z.of_nat (length (filter (fun time => now - time < 60000) history))));
      try lia; reflexivity.
  - rewrite lookup_insert_eq. cbn. now rewrite insert_insert_eq.
Qed.

(** ** The client *)

(** The format error is thrown only for a format that is not in the
    supported list. *)
Lemma validator_error_causes (audioBuffer : Buffer) (format : string) :
  (GoogleSTTService.validateAudioFile audioBuffer format
     = inl (Error errorMessages.FILE_TOO_LARGE)
   -> blen audioBuffer > maxFileSize speechConfig) /\
  (GoogleSTTService.validateAudioFile audioBuffer format
     = inl (Error errorMessages.UNSUPPORTED_FORMAT)
   -> blen audioBuffer <= maxFileSize speechConfig /\
      array_includes (supportedFormats speechConfig) (JsString.toLowerCase format) = false).
Proof.
  unfold GoogleSTTService.validateAudioFile.
  destruct (Z.gtb_spec (blen audioBuffer) (maxFileSize speechConfig)) as [Hbig|Hsmall];
    [|destruct (array_includes _ _) eqn:Hfmt; cbn [negb];
      [destruct (PrimFloat.ltb _ _)|]].
  all: split; intros H.
  all: first [ lia | reflexivity | discriminate | split; [lia|reflexivity]
             | exfalso; vm_compute in H; discriminate H ].
Qed.

(** X20: whatever the type of the recorded blob, the format that
    [detectAudioFormat] reports is one of the four formats that the
    validator of the service supports, so the service never rejects a
    detected format as unsupported, and its encoding is in the table. *)
Theorem detected_format_is_supported (blobType : string) (audioBuffer : Buffer) :
  array_includes (supportedFormats speechConfig)
    (JsString.toLowerCase (SttApiService.detectAudioFormat blobType)) = true /\
  GoogleSTTService.validateAudioFile audioBuffer (SttApiService.detectAudioFormat blobType)
    <> inl (Error errorMessages.UNSUPPORTED_FORMAT) /\
  In (GoogleSTTService.getEncodingConfig (SttApiService.detectAudioFormat blobType))
     [JsStr "WEBM_OPUS"; JsStr "LINEAR16"; JsStr "MP3"; JsStr "OGG_OPUS"].
Proof.
  assert (Hfmt : array_includes (supportedFormats speechConfig)
                   (JsString.toLowerCase (SttApiService.detectAudioFormat blobType)) = true).
  { unfold SttApiService.detectAudioFormat.
    repeat match goal with |- context [if ?b then _ else _] => destruct b end; reflexivity. }
  split; [exact Hfmt|]. split.
  - intros Hbad.
    apply (proj2 (validator_error_causes audioBuffer _)) in Hbad.
    rewrite Hfmt in Hbad. destruct Hbad as [_ Hbad]. discriminate Hbad.
  - unfold SttApiService.detectAudioFormat.
    repeat match goal with |- context [if ?b then _ else _] => destruct b end;
      cbn; auto 6.
Qed.

(** X21: [fetchWithRetry] makes at most three requests, waits 2000 ms
    after the first failure and 4000 ms after the second, and throws the
    error of the third request; a request that is answered ends the
    method with that response, whatever its status, so a rejection by
    the server is never retried.  Two nested calls are all it needs. *)
Theorem fetchWithRetry_schedule
    {Payload : Type} (fuel : nat) (net : SttApiService.Network Payload) (prod : bool)
    (endpoint : string) (events : list SttApiService.Event) :
  let request := SttApiService.Fetch (SttApiService.baseUrl prod +:+ endpoint) in
  let n := length events in
  SttApiService.fetchWithRetry (S (S fuel)) net prod endpoint 1 events
  = match net n with
    | inr response => Some (inr response, events ++ [request])
    | inl _ =>
        match net (n + 2)%nat with
        | inr response =>
            Some (inr response, events ++ [request; SttApiService.Wait 2000; request])
        | inl _ =>
            match net (n + 4)%nat with
            | inr response =>
                Some (inr response,
                      events ++ [request; SttApiService.Wait 2000; request;
                                 SttApiService.Wait 4000; request])
            | inl error =>
                Some (inl error,
                      events ++ [request; SttApiService.Wait 2000; request;
                                 SttApiService.Wait 4000; request])
            end
        end
    end.
Proof.
  intros request n. subst request n.
  cbn [SttApiService.fetchWithRetry].
  destruct (net (length events)) as [e1|r1]; [|reflexivity].
  change (1 <? SttApiService.retryAttempts) with true. cbv iota.
  rewrite !length_app. cbn [length]. rewrite <- !Nat.add_assoc. cbn [Nat.add].
  destruct (net (length events + 2)%nat) as [e2|r2].
  - change (1 + 1 <? SttApiService.retryAttempts) with true. cbv iota.
    destruct fuel as [|fuel]; cbn [SttApiService.fetchWithRetry];
      rewrite !length_app; cbn [length]; rewrite <- !Nat.add_assoc; cbn [Nat.add];
      destruct (net (length events + 4)%nat) as [e3|r3];
      rewrite <- ?app_assoc; reflexivity.
  - rewrite <- !app_assoc. reflexivity.
Qed.

(** A request that is answered at once. *)
Lemma first_answer_settles_the_request {Payload : Type} (net : SttApiService.Network Payload)
    (prod : bool) (endpoint : string) (events : list SttApiService.Event)
    (response : SttApiService.HttpResponse Payload) :
  net (length events) = inr response ->
  SttApiService.fetchWithRetry 3 net prod endpoint 1 events
  = Some (inr response,
          events ++ [SttApiService.Fetch (SttApiService.baseUrl prod +:+ endpoint)]).
Proof.
  intros Hnet. cbn [SttApiService.fetchWithRetry]. now rewrite Hnet.
Qed.

(** X22: a rejection by the server reaches the caller of
    [transcribeAudioFile] with the server's own message after a single
    request: when the response is not [ok] and its body carries a
    non-empty [error] that contains none of the four English phrases
    that [handleError] looks for, the method throws an [Error] with that
    message and has made one [fetch] and no wait. *)
Theorem server_rejection_reaches_the_caller
    {Payload : Type} (net : SttApiService.Network Payload) (prod : bool)
    (events : list SttApiService.Event) (response : SttApiService.HttpResponse Payload)
    (message : string) (body : Payload) :
  net (length events) = inr response ->
  SttApiService.ok response = false ->
  SttApiService.json response = inr (Some message, body) ->
  message <> "" ->
  JsString.includes message "Failed to fetch" = false ->
  JsString.includes message "rate limit" = false ->
  JsString.includes message "file too large" = false ->
  JsString.includes message "unsupported format" = false ->
  SttApiService.transcribeAudioFile net prod events
  = Some (inl (Error message),
          events ++ [SttApiService.Fetch (SttApiService.baseUrl prod +:+ "/transcribe")]).
Proof.
  intros Hnet Hok Hjson Hne H1 H2 H3 H4.
  unfold SttApiService.transcribeAudioFile.
  rewrite (first_answer_settles_the_request net prod "/transcribe" events response Hnet).
  unfold SttApiService.read_response. rewrite Hok, Hjson. cbn [negb].
  unfold JsString.or_else. destruct (String.eqb_spec message "") as [->|_]; [congruence|].
  unfold SttApiService.handleError. cbn [err_name err_message Error].
  change (String.eqb "Error" "AbortError") with false. cbv iota.
  now rewrite H1, H2, H3, H4.
Qed.

Lemma rate_limit_rejection_reaches_the_caller :
  SttApiService.transcribeAudioFile overloaded_server false []
  = Some (inl (Error (wrapped errorMessages.RATE_LIMIT_EXCEEDED)),
          [SttApiService.Fetch "http://localhost:3001/api/stt/transcribe"]).
Proof.
  refine (server_rejection_reaches_the_caller overloaded_server false [] _
            (wrapped errorMessages.RATE_LIMIT_EXCEEDED) tt eq_refl eq_refl eq_refl _ _ _ _ _).
  - vm_compute. discriminate.
  - vm_compute. reflexivity.
  - vm_compute. reflexivity.
  - vm_compute. reflexivity.
  - vm_compute. reflexivity.
Defined.

(** ** The identities of the chunks *)

Lemma string_length_append (s t : string) :
  String.length (s +:+ t) = (String.length s + String.length t)%nat.
Proof.
  induction s as [|c s IH]; [reflexivity|].
  change (S (String.length (s +:+ t)) = S (String.length s + String.length t)).
  now rewrite IH.
Qed.

(** The identity of a chunk is never the identity of the caller. *)
Lemma chunk_identity_differs options i :
  caller_of (GoogleSTTService.chunk_options options i) <> caller_of options.
Proof.
  unfold caller_of at 1. cbn [GoogleSTTService.chunk_options opt_clientId opt_str_or].
  fold (caller_of options). unfold JsString.or_else.
  assert (Hlen : forall t, String.length (caller_of options +:+ "_chunk_" +:+ t)
                           <> String.length (caller_of options)).
  { intros t. rewrite !string_length_append. cbn. lia. }
  destruct (String.eqb_spec (caller_of options +:+ "_chunk_" +:+ JsString.of_nat i) "")
    as [Hempty|_].
  - exfalso. apply (Hlen (JsString.of_nat i)). rewrite Hempty. cbn.
    specialize (Hlen (JsString.of_nat i)). rewrite Hempty in Hlen. cbn in Hlen.
    destruct (caller_of options); cbn in *; [discriminate Hempty|discriminate Hempty].
  - intros Heq. apply (Hlen (JsString.of_nat i)). now rewrite Heq.
Qed.

(** On an initialized service a transcription leaves the service
    initialized and touches the history of its own caller only. *)
Lemma transcribeAudio_frame env audioBuffer format options w other :
  Service.initialized (service w) = true ->
  other <> caller_of options ->
  Service.initialized
    (service (snd (GoogleSTTService.transcribeAudio env audioBuffer format options w))) = true /\
  Service.requestCount
    (service (snd (GoogleSTTService.transcribeAudio env audioBuffer format options w)))
    !! other
  = Service.requestCount (service w) !! other.
Proof.
  intros Hinit Hother.
  unfold GoogleSTTService.transcribeAudio, GoogleSTTService.checkRateLimit.
  js_unfold. cbn. rewrite Hinit. cbn.
  destruct (GoogleSTTService.validateAudioFile audioBuffer format); [now split|].
  cbn.
  destruct (GoogleSTTService.checkRateLimitAt _ _ _) as [e|rc'] eqn:Hrate; [now split|].
  apply checkRateLimitAt_accept in Hrate as [-> _].
  assert (Hkeep : (<[opt_str_or (opt_clientId options) "default" :=
                       filter (fun time => Date_now env (S (clock_reads w)) - time < 60000)
                         (default [] (Service.requestCount (service w)
                                        !! opt_str_or (opt_clientId options) "default"))
                       ++ [Date_now env (S (clock_reads w))]]>
                     (Service.requestCount (service w))) !! other
                  = Service.requestCount (service w) !! other).
  { apply lookup_insert_ne. intros Heq. apply Hother. now rewrite <- Heq. }
  cbn. rewrite Hinit.
  destruct (Service.speechClient (service w)); cbn; [|split; [reflexivity|exact Hkeep]].
  destruct (answer_recognize env (length (trace w))); cbn;
    [split; [reflexivity|exact Hkeep]|].
  destruct (GoogleSTTService.process_response _ _ _ _); cbn;
    split; first [reflexivity|exact Hkeep].
Qed.

Lemma process_chunks_frame env format options count other rest :
  (forall i, other <> caller_of (GoogleSTTService.chunk_options options i)) ->
  forall i results total w,
    Service.initialized (service w) = true ->
    Service.requestCount
      (service (snd (GoogleSTTService.process_chunks env format options count i rest
                       results total w))) !! other
    = Service.requestCount (service w) !! other.
Proof.
  intros Hother. induction rest as [|chunk rest IH]; intros i results total w Hinit.
  - reflexivity.
  - destruct (transcribeAudio_frame env chunk format
                (GoogleSTTService.chunk_options options i) w other Hinit (Hother i))
      as [Hinit1 Hkeep].
    destruct (GoogleSTTService.transcribeAudio env chunk format
                (GoogleSTTService.chunk_options options i) w) as [[e|r] w1] eqn:Hchunk;
      cbn [snd] in Hinit1, Hkeep.
    + rewrite (process_chunks_fail _ _ _ _ _ _ _ _ _ _ _ _ Hchunk). exact Hkeep.
    + rewrite (process_chunks_next _ _ _ _ _ _ _ _ _ _ _ _ Hchunk).
      rewrite IH; [|destruct (_ <? _); exact Hinit1].
      destruct (_ <? _); exact Hkeep.
Qed.

(** X23: the chunked path never counts against the caller itself: on
    an initialized service, whatever happens to the chunks, the
    history that the limiter holds for the caller's own identity is
    the same after [transcribeLongAudio] as before; the chunks are
    recorded under the suffixed identities only. *)
Theorem long_audio_is_not_counted_for_the_caller
    (env : Env) (audioBuffer : Buffer) (format : string) (options : Options) (w : World) :
  blen audioBuffer > chunk_threshold ->
  Service.initialized (service w) = true ->
  Service.requestCount
    (service (snd (GoogleSTTService.transcribeLongAudio env audioBuffer format options w)))
    !! caller_of options
  = Service.requestCount (service w) !! caller_of options.
Proof.
  intros Hlong Hinit.
  unfold GoogleSTTService.transcribeLongAudio. cbv zeta.
  change (4 * 1024 * 1024) with chunk_threshold.
  destruct (Z.leb_spec (blen audioBuffer) chunk_threshold) as [Hsmall|_]; [lia|].
  pose proof (process_chunks_frame env format options
                (length (GoogleSTTService.split_chunks chunk_threshold audioBuffer))
                (caller_of options)
                (GoogleSTTService.split_chunks chunk_threshold audioBuffer)
                (fun i Heq => chunk_identity_differs options i (eq_sym Heq))
                0%nat [] 0 w Hinit) as Hframe.
  unfold try_catch, bind, ret, throw.
  destruct (GoogleSTTService.process_chunks env format options _ 0 _ [] 0 w)
    as [[e|acc] w1]; exact Hframe.
Qed.

(** ** Lazy initialization *)

(** X24: on a service that is not initialized, [transcribeAudio]
    initializes it first.  When that fails, the method throws the
    initialization error wrapped as the generic transcription failure,
    before the clock is read and before the input is validated, so every
    input, valid or not, gets this error; when it succeeds, the method
    goes on exactly as it does on the initialized service. *)
Theorem transcribeAudio_initializes_lazily
    (env : Env) (audioBuffer : Buffer) (format : string) (options : Options) (w : World) :
  Service.initialized (service w) = false ->
  GoogleSTTService.transcribeAudio env audioBuffer format options w
  = match GoogleSTTService.initialize env w with
    | (inl _, w1) => (inl (Error (wrapped "STTサービスの初期化に失敗しました")), w1)
    | (inr _, w1) => GoogleSTTService.transcribeAudio env audioBuffer format options w1
    end.
Proof.
  intros Hno.
  destruct (GoogleSTTService.initialize env w) as [[e|[]] w1] eqn:Hrun.
  - assert (He : e = Error "STTサービスの初期化に失敗しました").
    { unfold GoogleSTTService.initialize, try_catch, throw in Hrun.
      destruct (bind (WorkloadIdentityManager.initialize env) _ w) as [[e0|u] w0];
        [|discriminate Hrun].
      now injection Hrun as <- _. }
    subst e.
    unfold GoogleSTTService.transcribeAudio, try_catch, bind, get_service.
    rewrite Hno. cbn [negb]. rewrite Hrun. unfold throw. reflexivity.
  - exact (transcribeAudio_lazy_init env audioBuffer format options w w1 Hno Hrun).
Qed.

Lemma oversized_input_on_failing_initialization :
  GoogleSTTService.transcribeAudio probe_down_env (zeros (maxFileSize speechConfig + 1))
    "webm" no_options boot
  = (inl (Error (wrapped "STTサービスの初期化に失敗しました")),
     snd (GoogleSTTService.initialize probe_down_env boot)).
Proof.
  exact (transcribeAudio_initializes_lazily probe_down_env
           (zeros (maxFileSize speechConfig + 1)) "webm" no_options boot eq_refl).
Defined.

(** ** The older copy of the credential manager, continued *)

Lemma legacy_pbind_no_value {A B} (m : LegacyManager.P A) (k : A -> LegacyManager.P B) w :
  (forall a w', m w <> Some (inr a, w')) ->
  forall b w', LegacyManager.pbind m k w <> Some (inr b, w').
Proof.
  intros Hm b w'. unfold LegacyManager.pbind.
  destruct (m w) as [[[e|a] w1]|]; [discriminate|now destruct (Hm a w1)|discriminate].
Qed.

Lemma legacy_ptry_no_value {A} (body : LegacyManager.P A) (e : JsError) w :
  (forall a w', body w <> Some (inr a, w')) ->
  forall a w', LegacyManager.ptry body (fun _ => LegacyManager.run (throw e)) w
               <> Some (inr a, w').
Proof.
  intros Hbody a w'. unfold LegacyManager.ptry.
  destruct (body w) as [[[e0|a0] w1]|]; [discriminate|now destruct (Hbody a0 w1)|discriminate].
Qed.

Lemma legacy_ensure_initialized_no_value fuel env w :
  Manager.initialized (manager w) = false ->
  forall u w',
    LegacyManager.ensure_initialized (LegacyManager.initialize fuel env) w
    <> Some (inr u, w').
Proof.
  intros Hflag [] w'.
  unfold LegacyManager.ensure_initialized, LegacyManager.pbind, LegacyManager.run, get_manager.
  rewrite Hflag. cbn [negb].
  now apply legacy_initialize_never_returns.
Qed.

(** X25: in the copy of the manager under src/backend/auth every
    accessor initializes the manager itself when the flag is unset, and
    [initialize()] sets the flag only after a probe that calls
    [getAccessToken()].  From a manager that is not initialized,
    therefore, none of [initialize()], [getAccessToken()],
    [getAuthenticatedClient()] and [getProjectId()] ever returns a
    value, whatever the remote ends answer and however deep the nesting
    is allowed to go: each of them throws or goes on for ever. *)
Theorem legacy_manager_never_becomes_usable (fuel : nat) (env : Env) (w : World) :
  Manager.initialized (manager w) = false ->
  (forall w', LegacyManager.initialize fuel env w <> Some (inr tt, w')) /\
  (forall token w', LegacyManager.getAccessToken fuel env w <> Some (inr token, w')) /\
  (forall client w', LegacyManager.getAuthenticatedClient fuel env w
                     <> Some (inr client, w')) /\
  (forall projectId w', LegacyManager.getProjectId fuel env w <> Some (inr projectId, w')).
Proof.
  intros Hflag.
  pose proof (legacy_ensure_initialized_no_value fuel env w Hflag) as Hensure.
  split; [intros w'; now apply legacy_initialize_never_returns|].
  split; [|split]; intros r w'.
  - unfold LegacyManager.getAccessToken, LegacyManager.getAccessToken_with.
    apply legacy_ptry_no_value. now apply legacy_pbind_no_value.
  - unfold LegacyManager.getAuthenticatedClient.
    apply legacy_ptry_no_value. now apply legacy_pbind_no_value.
  - unfold LegacyManager.getProjectId.
    apply legacy_ptry_no_value. now apply legacy_pbind_no_value.
Qed.

Lemma legacy_manager_at_boot :
  LegacyManager.initialize 100 calm_env boot = None /\
  (forall w', LegacyManager.initialize 100 calm_env boot <> Some (inr tt, w')) /\
  (forall token w', LegacyManager.getAccessToken 100 calm_env boot
                    <> Some (inr token, w')) /\
  (forall client w', LegacyManager.getAuthenticatedClient 100 calm_env boot
                     <> Some (inr client, w')) /\
  (forall projectId w', LegacyManager.getProjectId 100 calm_env boot
                        <> Some (inr projectId, w')).
Proof.
  split; [vm_compute; reflexivity|].
  exact (legacy_manager_never_becomes_usable 100 calm_env boot eq_refl).
Defined.

(** X26: the older [refreshAuthentication()] clears the flag and then
    calls [initialize()], so from every state it throws or goes on for
    ever: it never returns. *)
Theorem legacy_refresh_never_returns (fuel : nat) (env : Env) (w w' : World) :
  LegacyManager.refreshAuthentication fuel env w <> Some (inr tt, w').
Proof.
  unfold LegacyManager.refreshAuthentication.
  apply legacy_ptry_no_value. clear w'. intros [] w'.
  unfold LegacyManager.pbind at 1, LegacyManager.run.
  destruct w as [[au cl ini] sv tr k al].
  unfold WorkloadIdentityManager.set_initialized, WorkloadIdentityManager.set_client.
  js_unfold. cbn.
  now apply legacy_initialize_never_returns.
Qed.

(** ** Runs on the long buffer *)

#[local] Opaque blen chunk_at.

Lemma validate_unsupported_chunk b format :
  blen b = chunk_threshold ->
  array_includes (supportedFormats speechConfig) (JsString.toLowerCase format) = false ->
  GoogleSTTService.validateAudioFile b format = inl (Error errorMessages.UNSUPPORTED_FORMAT).
Proof.
  intros Hlen Hfmt. unfold GoogleSTTService.validateAudioFile.
  rewrite Hlen, Hfmt. vm_compute. reflexivity.
Qed.

(** Sixteen mebibytes in a format that the validator does not know: the
    first chunk is rejected and the run ends there. *)
Lemma flac_long_run :
  GoogleSTTService.transcribeLongAudio calm_env long_buffer "flac" no_options ready
  = (inl (Error (wrapped errorMessages.UNSUPPORTED_FORMAT)), after_reads 1 ready).
Proof.
  assert (Hchunk : GoogleSTTService.transcribeAudio calm_env (chunk_at long_buffer 0) "flac"
                     (GoogleSTTService.chunk_options no_options 0) ready
                   = (inl (Error (wrapped errorMessages.UNSUPPORTED_FORMAT)),
                      after_reads 1 ready)).
  { rewrite (transcribeAudio_rejected_by_validator calm_env (chunk_at long_buffer 0) "flac"
               (GoogleSTTService.chunk_options no_options 0) ready
               (Error errorMessages.UNSUPPORTED_FORMAT) eq_refl).
    - reflexivity.
    - apply validate_unsupported_chunk; [|reflexivity].
      assert (Hthr : chunk_threshold = 4194304) by reflexivity.
      apply blen_chunk_at; [lia|]. rewrite blen_long_buffer. lia. }
  unfold GoogleSTTService.transcribeLongAudio. cbv zeta.
  change (4 * 1024 * 1024) with chunk_threshold.
  destruct (Z.leb_spec (blen long_buffer) chunk_threshold) as [Hsmall|_].
  { assert (Hthr : chunk_threshold = 4194304) by reflexivity.
    rewrite blen_long_buffer in Hsmall. lia. }
  rewrite (split_chunks_four long_buffer blen_long_buffer).
  unfold try_catch, bind at 1.
  pose proof (process_chunks_fail calm_env "flac" no_options 4%nat 0%nat
                (chunk_at long_buffer 0)
                [chunk_at long_buffer 1; chunk_at long_buffer 2; chunk_at long_buffer 3]
                [] 0 ready _ _ Hchunk) as Hloop.
  cbn [length]. rewrite Hloop. reflexivity.
Qed.

Lemma long_audio_in_unknown_format :
  classified (Error (wrapped errorMessages.UNSUPPORTED_FORMAT)) /\
  exists k chunk wk,
    GoogleSTTService.split_chunks chunk_threshold long_buffer !! k = Some chunk /\
    GoogleSTTService.transcribeAudio calm_env chunk "flac"
      (GoogleSTTService.chunk_options no_options k) wk
    = (inl (Error (wrapped errorMessages.UNSUPPORTED_FORMAT)), after_reads 1 ready).
Proof.
  apply (long_audio_aborts_with_the_error_of_a_chunk calm_env long_buffer "flac"
           no_options ready).
  - rewrite blen_long_buffer. reflexivity.
  - exact flac_long_run.
Defined.

Lemma long_audio_of_the_default_caller :
  Service.requestCount
    (service (snd (GoogleSTTService.transcribeLongAudio talk_env long_buffer "webm"
                     no_options ready)))
    !! caller_of no_options
  = Service.requestCount (service ready) !! caller_of no_options.
Proof.
  apply long_audio_is_not_counted_for_the_caller.
  - rewrite blen_long_buffer. reflexivity.
  - reflexivity.
Defined.
